(** * Calico sensors: measurement identity, model factory and gyroscope cost functor

    A shallow embedding of
    - [src/calico/sensors/camera.h]  ([ObservationId], the [Camera] interface),
    - [src/calico/sensors/camera_models.cpp]  ([CameraModel::Create]),
    - [src/calico/sensors/gyroscope_cost_functor.h]
      ([GyroscopeParameterIndices], [GyroscopeCostFunctor::operator()], [skew]).

    C++ [double] is IEEE-754 binary64; it is modelled with the executable
    specification of binary floating point of the standard library
    ([SpecFloat]), so that [==] on a [double] is the IEEE comparison and not
    Leibniz equality.  C++ [int] is modelled as [Z], sizes and indices of
    arrays as [nat].

    The cost functor is a template over its numeric type; it is embedded as
    a function over any type with the operations the template uses, and
    run at [double] and at the reals.  The parameter blocks it receives are
    lists, and a read outside a list, undefined behaviour in the source,
    makes the evaluation [None].

    Functions whose bodies are in files not at hand ([camera.cpp]) are
    modelled from the specification and marked so. *)

From Stdlib Require Import ZArith List Bool Reals Lra Lia SpecFloat RNsatz.
From stdpp Require Import base option list.

(** ** IEEE-754 binary64 *)

Module Double.

Definition prec : Z := 53.
Definition emax : Z := 1024.

(** A C++ [double]. *)
Definition t : Type := spec_float.

Definition nan : t := S754_nan.
Definition pos_zero : t := S754_zero false.
Definition neg_zero : t := S754_zero true.

(** The [double] nearest to an integer, as an integer literal [n.0] denotes it. *)
Definition of_Z (n : Z) : t := binary_normalize prec emax n 0 false.

Definition add : t -> t -> t := SFadd prec emax.
Definition sub : t -> t -> t := SFsub prec emax.
Definition mul : t -> t -> t := SFmul prec emax.
Definition div : t -> t -> t := SFdiv prec emax.
Definition sqrt : t -> t := SFsqrt prec emax.
Definition opp : t -> t := SFopp.
Definition abs : t -> t := SFabs.

(** [x == y], [x < y] and [x <= y] on [double]. *)
Definition eqb : t -> t -> bool := SFeqb.
Definition ltb : t -> t -> bool := SFltb.
Definition leb : t -> t -> bool := SFleb.

Definition is_nan (x : t) : bool :=
  match x with S754_nan => true | _ => false end.

(** Neither NaN nor an infinity. *)
Definition is_finite (x : t) : bool :=
  match x with S754_zero _ | S754_finite _ _ _ => true | _ => false end.

(** The literal [p.0 / q.0] evaluated in [double] arithmetic: the correctly
    rounded quotient.  [1e-7] is [lit 1 10000000], [0.5] is [lit 1 2]. *)
Definition lit (p q : Z) : t := div (of_Z p) (of_Z q).

End Double.

(** ** [ObservationId]  (camera.h, lines 23-40) *)

Module Observation.

Record ObservationId : Type := mkObservationId {
  stamp : Double.t;
  image_id : Z;
  model_id : Z;
  feature_id : Z
}.

(** [operator==(lhs, rhs)]: the conjunction of the four field comparisons,
    the first one on [double]. *)
Definition eq_op (lhs rhs : ObservationId) : bool :=
  Double.eqb (stamp lhs) (stamp rhs) &&
  (image_id lhs =? image_id rhs)%Z &&
  (model_id lhs =? model_id rhs)%Z &&
  (feature_id lhs =? feature_id rhs)%Z.

(** The hash framework of abseil.  [H] is the hash state; [hash_bytes] mixes
    the object representation of a [double] into the state and [hash_int]
    that of an [int].  Abseil hashes a floating-point value [v] as
    [hash_bytes(state, v == 0 ? 0 : v)], so that both zeros hash alike. *)
Section Hash.

Variable H : Type.
Variable hash_bytes : H -> Double.t -> H.
Variable hash_int : H -> Z -> H.

Definition hash_double (h : H) (v : Double.t) : H :=
  hash_bytes h (if Double.eqb v Double.pos_zero then Double.pos_zero else v).

(** An argument of [H::combine]: a [double] or an [int]. *)
Inductive member : Type :=
| FDouble (v : Double.t)
| FInt (n : Z).

Definition combine1 (h : H) (f : member) : H :=
  match f with
  | FDouble v => hash_double h v
  | FInt n => hash_int h n
  end.

(** [H::combine(h, v1, ..., vn)] folds its arguments into the state from
    left to right. *)
Definition combine (h : H) (fs : list member) : H := fold_left combine1 fs h.

(** [AbslHashValue(h, id)] is
    [H::combine(std::move(h), id.stamp, id.image_id, id.model_id, id.feature_id)]. *)
Definition AbslHashValue (h : H) (id : ObservationId) : H :=
  combine h [FDouble (stamp id); FInt (image_id id); FInt (model_id id);
             FInt (feature_id id)].

End Hash.

End Observation.

(** ** [absl::Status] and [absl::StatusOr] *)

Module Absl.

(** A status, with the error kinds of the specification. *)
Inductive Status : Type :=
| OkStatus
| DuplicateEntry
| NotFound
| ConfigurationError
| ProjectionInvalid.

Inductive StatusOr (A : Type) : Type :=
| OkValue (a : A)
| ErrorStatus (s : Status).

Arguments OkValue {A} a.
Arguments ErrorStatus {A} s.

(** [status_or.ok()]. *)
Definition ok {A : Type} (r : StatusOr A) : bool :=
  match r with OkValue _ => true | ErrorStatus _ => false end.

End Absl.

(** ** [absl::flat_hash_map]

    A hash map keyed by a type with its own [operator==], modelled as the
    list of its entries.  A lookup returns a stored entry whose key compares
    [==] to the queried key; with a hash that agrees on [==]-equal keys,
    as the one of [ObservationId] does, this is exactly what probing
    finds.  Iteration order is unspecified in the library; here it is the
    reverse order of insertion. *)

Module FlatHashMap.

Section Map.

Variables K V : Type.
Variable keq : K -> K -> bool.

Definition map : Type := list (K * V).

Definition empty : map := [].

Definition find (k : K) (m : map) : option (K * V) :=
  List.find (fun e => keq (fst e) k) m.

Definition contains (k : K) (m : map) : bool :=
  existsb (fun e => keq (fst e) k) m.

Definition size (m : map) : nat := length m.

Definition keys (m : map) : list K := List.map fst m.

(** The number of [keq]-distinct keys of a list: a key counts when no later
    key of the list compares [==] to it. *)
Fixpoint count_distinct (l : list K) : nat :=
  match l with
  | [] => 0%nat
  | k :: rest => if existsb (keq k) rest then count_distinct rest
                 else S (count_distinct rest)
  end.

End Map.

Arguments empty {K V}.
Arguments find {K V} keq k m.
Arguments contains {K V} keq k m.
Arguments size {K V} m.
Arguments keys {K V} m.
Arguments count_distinct {K} keq l.

End FlatHashMap.

(** ** [CameraModel::Create]  (camera_models.cpp, lines 5-18) *)

Module CameraModels.

(** The concrete models the factory constructs.  Both are stateless. *)
Inductive CameraModel : Type :=
| OpenCv5Model
| KannalaBrandtModel.

(** [std::unique_ptr<CameraModel>]: an owned model or the null pointer. *)
Definition unique_ptr (A : Type) : Type := option A.

Section Create.

(** The enumeration [CameraIntrinsicsModel] is declared in
    [camera_models.h]; a value of it is an [int].  The two enumerators the
    [switch] names are taken as parameters; being [case] labels of one
    [switch] they differ. *)
Variables kOpenCv5 kKannalaBrandt : Z.
Hypothesis distinct_labels : kOpenCv5 <> kKannalaBrandt.

Definition Create (camera_model : Z) : unique_ptr CameraModel :=
  if (camera_model =? kOpenCv5)%Z then Some OpenCv5Model
  else if (camera_model =? kKannalaBrandt)%Z then Some KannalaBrandtModel
  else None.

Definition recognized (camera_model : Z) : Prop :=
  camera_model = kOpenCv5 \/ camera_model = kKannalaBrandt.

End Create.

End CameraModels.

(** ** [Camera]: the measurement store and the two [Project] overloads
    (camera.h, lines 54-150) *)

Module Camera.

Import Observation Absl.

(** [Eigen::Vector2d]. *)
Record Vector2d : Type := mkVector2d { px : Double.t; py : Double.t }.

Record CameraMeasurement : Type := mkCameraMeasurement {
  pixel : Vector2d;
  id : ObservationId
}.

(** The member [id_to_measurement_]. *)
Definition store : Type := FlatHashMap.map ObservationId CameraMeasurement.

(** Modelled from the spec: the body of [Camera::AddMeasurement], which is
    defined in [camera.cpp].  "[Add(m)]: fails DuplicateEntry if [m.id]
    already present, else inserts"; presence is the lookup of the hash map
    declared in [camera.h], which compares keys with [operator==]. *)
Definition AddMeasurement (measurement : CameraMeasurement) (s : store)
  : Status * store :=
  if FlatHashMap.contains eq_op (id measurement) s
  then (DuplicateEntry, s)
  else (OkStatus, (id measurement, measurement) :: s).

(** Modelled from the spec: the body of [Camera::NumberOfMeasurements],
    defined in [camera.cpp].  "[Count()]: current size". *)
Definition NumberOfMeasurements (s : store) : nat := FlatHashMap.size s.

(** A sequence of [AddMeasurement] calls, statuses dropped. *)
Definition AddAll (ms : list CameraMeasurement) (s : store) : store :=
  fold_left (fun acc m => snd (AddMeasurement m acc)) ms s.

Section Project.

(** The collaborators of [Project]: the trajectory, the world model and the
    projection geometry are external to the sensor. *)
Variables Trajectory WorldModel Extrinsics Intrinsics : Type.

(** Every timestamp known to the trajectory. *)
Variable timestamps : Trajectory -> list Double.t.

(** The physically valid synthetic measurements at one time: landmarks in
    front of the camera and, when bounds are checked, inside the image. *)
Variable observe :
  CameraModels.CameraModel -> Extrinsics -> Intrinsics ->
  Trajectory -> WorldModel -> Double.t -> list CameraMeasurement.

Record camera : Type := mkCamera {
  camera_model_ : CameraModels.unique_ptr CameraModels.CameraModel;
  T_sensorrig_sensor_ : Extrinsics;
  intrinsics_ : Intrinsics;
  id_to_measurement_ : store
}.

(** Modelled from the spec: the body of the [Project] overload that takes
    [interp_times], defined in [camera.cpp].  It fails with a configuration
    error when no model is set, and otherwise collects the valid
    projections at each requested time. *)
Definition Project_times (c : camera) (interp_times : list Double.t)
    (sensorrig_trajectory : Trajectory) (world_model : WorldModel)
  : StatusOr (list CameraMeasurement) :=
  match camera_model_ c with
  | None => ErrorStatus ConfigurationError
  | Some model =>
      OkValue
        (flat_map (observe model (T_sensorrig_sensor_ c) (intrinsics_ c)
                           sensorrig_trajectory world_model)
                  interp_times)
  end.

(** Modelled from the spec: the body of the [Project] overload without a
    time argument, defined in [camera.cpp].  Its declared result is a plain
    [std::vector<CameraMeasurement>]: it enumerates every timestamp of the
    trajectory and returns the empty list where the other overload reports
    an error. *)
Definition Project (c : camera) (sensorrig_trajectory : Trajectory)
    (world_model : WorldModel) : list CameraMeasurement :=
  match Project_times c (timestamps sensorrig_trajectory)
                      sensorrig_trajectory world_model with
  | OkValue measurements => measurements
  | ErrorStatus _ => []
  end.

End Project.

End Camera.

(** ** [GyroscopeCostFunctor]  (gyroscope_cost_functor.h) *)

Module Gyroscope.

(** The numeric type [T] of the functor template: [double] for plain
    evaluation, a derivative-carrying type for automatic differentiation.
    The functor uses the operations below and nothing else of [T]. *)
Class Scalar (T : Type) : Type := {
  (** [static_cast<T>(p.0 / q.0)]: a floating-point literal, cast to [T]. *)
  lit : Z -> Z -> T;
  (** [static_cast<T>(d)] for a captured [double]. *)
  cast : Double.t -> T;
  add : T -> T -> T;
  sub : T -> T -> T;
  mul : T -> T -> T;
  div : T -> T -> T;
  neg : T -> T;
  sqrt : T -> T;
  cos : T -> T;
  sin : T -> T;
  abs : T -> T;
  (** [a < b] and [a != b]. *)
  ltb : T -> T -> bool;
  neqb : T -> T -> bool
}.

(** The same numeric type with another division. *)
Definition with_div {T : Type} (d : T -> T -> T) (S : Scalar T) : Scalar T :=
  {| lit := @lit T S; cast := @cast T S; add := @add T S; sub := @sub T S;
     mul := @mul T S; div := d; neg := @neg T S; sqrt := @sqrt T S;
     cos := @cos T S; sin := @sin T S; abs := @abs T S; ltb := @ltb T S;
     neqb := @neqb T S |}.

(** [enum class GyroscopeParameterIndices : int]  (lines 12-23). *)
Inductive GyroscopeParameterIndices : Type :=
| kIntrinsicsIndex
| kExtrinsicsRotationIndex
| kExtrinsicsTranslationIndex
| kLatencyIndex
| kSensorRigPoseSplineControlPointsIndex.

(** [static_cast<int>(index)]. *)
Definition to_int (i : GyroscopeParameterIndices) : Z :=
  match i with
  | kIntrinsicsIndex => 0
  | kExtrinsicsRotationIndex => 1
  | kExtrinsicsTranslationIndex => 2
  | kLatencyIndex => 3
  | kSensorRigPoseSplineControlPointsIndex => 7
  end.

Definition kGyroscopeResidualSize : Z := 3.

(** [Eigen::Vector3<T>], [Eigen::Matrix3<T>] (by rows), [Eigen::Quaternion<T>]
    (coefficients stored in the order x, y, z, w) and [Eigen::Vector<T, 6>]
    (its [head(3)] and its last three entries). *)
Record Vector3 (T : Type) : Type := mkVector3 { vx : T; vy : T; vz : T }.
Record Matrix3 (T : Type) : Type :=
  mkMatrix3 { row0 : Vector3 T; row1 : Vector3 T; row2 : Vector3 T }.
Record Quaternion (T : Type) : Type :=
  mkQuaternion { qx : T; qy : T; qz : T; qw : T }.
Record Vector6 (T : Type) : Type :=
  mkVector6 { head3 : Vector3 T; tail3 : Vector3 T }.

Arguments mkVector3 {T}.
Arguments vx {T}.
Arguments vy {T}.
Arguments vz {T}.
Arguments mkMatrix3 {T}.
Arguments row0 {T}.
Arguments row1 {T}.
Arguments row2 {T}.
Arguments mkQuaternion {T}.
Arguments qx {T}.
Arguments qy {T}.
Arguments qz {T}.
Arguments qw {T}.
Arguments mkVector6 {T}.
Arguments head3 {T}.
Arguments tail3 {T}.

(** [TrajectoryEvaluationParams]: the spline context captured with the
    functor.  The struct is declared in [trajectory.h]; these are the
    members the functor reads. *)
Record TrajectoryEvaluationParams : Type := mkTrajectoryEvaluationParams {
  stamp : Double.t;
  spline_index : nat;
  knot0 : Double.t;
  knot1 : Double.t;
  num_control_points : nat;
  basis_matrix : list (list Double.t)
}.

(** The interface of [GyroscopeModel] at the numeric type [T]
    ([gyroscope_models.h]): the number of intrinsic parameters and the
    projection, which may report an error. *)
Record GyroscopeModel (T : Type) : Type := mkGyroscopeModel {
  NumberOfParameters : nat;
  Project : list T -> Vector3 T -> Absl.StatusOr (Vector3 T)
}.

Arguments NumberOfParameters {T}.
Arguments Project {T}.

Section Functor.

Context {T : Type} {S : Scalar T}.

Declare Scope scalar_scope.
Local Notation "a + b" := (add a b) : scalar_scope.
Local Notation "a - b" := (sub a b) : scalar_scope.
Local Notation "a * b" := (mul a b) : scalar_scope.
Local Notation "a / b" := (div a b) : scalar_scope.
Local Notation "- a" := (neg a) : scalar_scope.
Local Open Scope scalar_scope.

(** *** The Eigen operations the functor uses *)

(** [v.squaredNorm()] and the inner product of a matrix product: a sum of
    three products. *)
Definition dot (a b : Vector3 T) : T :=
  vx a * vx b + (vy a * vy b + vz a * vz b).

Definition squaredNorm (v : Vector3 T) : T := dot v v.

(** [-v] *)
Definition Vneg (v : Vector3 T) : Vector3 T :=
  mkVector3 (- vx v) (- vy v) (- vz v).

(** [a - b] on vectors. *)
Definition Vsub (a b : Vector3 T) : Vector3 T :=
  mkVector3 (vx a - vx b) (vy a - vy b) (vz a - vz b).

(** [M.setIdentity()] *)
Definition Identity : Matrix3 T :=
  mkMatrix3 (mkVector3 (lit 1 1) (lit 0 1) (lit 0 1))
            (mkVector3 (lit 0 1) (lit 1 1) (lit 0 1))
            (mkVector3 (lit 0 1) (lit 0 1) (lit 1 1)).

Definition Vscale (c : T) (v : Vector3 T) : Vector3 T :=
  mkVector3 (c * vx v) (c * vy v) (c * vz v).

Definition Vadd (a b : Vector3 T) : Vector3 T :=
  mkVector3 (vx a + vx b) (vy a + vy b) (vz a + vz b).

(** [c * M], [A + B], [A * B] and [A * v]. *)
Definition Mscale (c : T) (M : Matrix3 T) : Matrix3 T :=
  mkMatrix3 (Vscale c (row0 M)) (Vscale c (row1 M)) (Vscale c (row2 M)).

Definition Madd (A B : Matrix3 T) : Matrix3 T :=
  mkMatrix3 (Vadd (row0 A) (row0 B)) (Vadd (row1 A) (row1 B))
            (Vadd (row2 A) (row2 B)).

Definition col0 (M : Matrix3 T) : Vector3 T :=
  mkVector3 (vx (row0 M)) (vx (row1 M)) (vx (row2 M)).
Definition col1 (M : Matrix3 T) : Vector3 T :=
  mkVector3 (vy (row0 M)) (vy (row1 M)) (vy (row2 M)).
Definition col2 (M : Matrix3 T) : Vector3 T :=
  mkVector3 (vz (row0 M)) (vz (row1 M)) (vz (row2 M)).

Definition Mv (M : Matrix3 T) (v : Vector3 T) : Vector3 T :=
  mkVector3 (dot (row0 M) v) (dot (row1 M) v) (dot (row2 M) v).

Definition Vm (v : Vector3 T) (M : Matrix3 T) : Vector3 T :=
  mkVector3 (dot v (col0 M)) (dot v (col1 M)) (dot v (col2 M)).

Definition Mmul (A B : Matrix3 T) : Matrix3 T :=
  mkMatrix3 (Vm (row0 A) B) (Vm (row1 A) B) (Vm (row2 A) B).

(** [q.inverse()]: the conjugate over the squared norm, and the zero
    quaternion when the squared norm is not positive. *)
Definition Qinverse (q : Quaternion T) : Quaternion T :=
  let n2 := (qx q * qx q + qy q * qy q) + (qz q * qz q + qw q * qw q) in
  if ltb (lit 0 1) n2
  then mkQuaternion (- qx q / n2) (- qy q / n2) (- qz q / n2) (qw q / n2)
  else mkQuaternion (lit 0 1) (lit 0 1) (lit 0 1) (lit 0 1).

(** [q.toRotationMatrix()] *)
Definition toRotationMatrix (q : Quaternion T) : Matrix3 T :=
  let tx := lit 2 1 * qx q in
  let ty := lit 2 1 * qy q in
  let tz := lit 2 1 * qz q in
  let twx := tx * qw q in
  let twy := ty * qw q in
  let twz := tz * qw q in
  let txx := tx * qx q in
  let txy := ty * qx q in
  let txz := tz * qx q in
  let tyy := ty * qy q in
  let tyz := tz * qy q in
  let tzz := tz * qz q in
  mkMatrix3
    (mkVector3 (lit 1 1 - (tyy + tzz)) (txy - twz) (txz + twy))
    (mkVector3 (txy + twz) (lit 1 1 - (txx + tzz)) (tyz - twx))
    (mkVector3 (txz - twy) (tyz + twx) (lit 1 1 - (txx + tyy))).

(** [u.cross(v)] *)
Definition cross (u v : Vector3 T) : Vector3 T :=
  mkVector3 (vy u * vz v - vz u * vy v)
            (vz u * vx v - vx u * vz v)
            (vx u * vy v - vy u * vx v).

(** [q * v] for a vector [v]: the rotation of [v] by [q],
    [v + w * (2 (u x v)) + u x (2 (u x v))] with [u] the vector part. *)
Definition transformVector (q : Quaternion T) (v : Vector3 T) : Vector3 T :=
  let u := mkVector3 (qx q) (qy q) (qz q) in
  let uv := cross u v in
  let uv2 := Vadd uv uv in
  Vadd (Vadd v (Vscale (qw q) uv2)) (cross u uv2).

(** *** [skew]  (lines 143-154) *)

Definition skew (v : Vector3 T) : Matrix3 T :=
  mkMatrix3 (mkVector3 (lit 0 1) (- vz v) (vy v))
            (mkVector3 (vz v) (lit 0 1) (- vx v))
            (mkVector3 (- vy v) (vx v) (lit 0 1)).

(** *** The manifold Jacobian  (lines 102-124) *)

(** The coefficients [c1] and [c2]  (lines 108-121). *)
Definition SeriesCoefficients (theta_sq : T) : T * T :=
  let theta := sqrt theta_sq in
  let theta_fo := theta_sq * theta_sq in
  if ltb (abs theta) (lit 1 10000000)
  then (lit 1 2 - theta_sq * lit 1 24 + theta_fo * lit 1 720,
        lit 1 6 - theta_sq * lit 1 120 + theta_fo * lit 1 5040)
  else
    let inv_theta_sq := lit 1 1 / theta_sq in
    ((lit 1 1 - cos theta) * inv_theta_sq,
     (lit 1 1 - sin theta / theta) * inv_theta_sq).

(** The matrix [J] computed from [phi]. *)
Definition ManifoldJacobian (phi : Vector3 T) : Matrix3 T :=
  let theta_sq := squaredNorm phi in
  let J := Identity in
  if neqb theta_sq (lit 0 1)
  then
    let '(c1, c2) := SeriesCoefficients theta_sq in
    let phi_x := skew phi in
    Madd J (Madd (Mscale c1 phi_x) (Mmul (Mscale c2 phi_x) phi_x))
  else J.

(** *** Angular velocity  (lines 102-130) *)

(** [omega_sensor_world], from the extrinsic rotation and the pose and pose
    rate the spline evaluates to.  The product
    [q.inverse() * J * phi_dot] associates to the left: the rotation
    matrix of the inverse quaternion times [J], times [phi_dot]. *)
Definition omega_sensor_world (q_sensorrig_gyroscope : Quaternion T)
    (pose_vector pose_dot_vector : Vector6 T) : Vector3 T :=
  let phi := Vneg (head3 pose_vector) in
  let J := ManifoldJacobian phi in
  let phi_dot := Vneg (head3 pose_dot_vector) in
  Mv (Mmul (toRotationMatrix (Qinverse q_sensorrig_gyroscope)) J) phi_dot.

(** *** [operator()]  (lines 57-141) *)

(** [Trajectory::kSplineOrder] and [BSpline<kSplineOrder, T>::Evaluate] are
    defined with the trajectory, outside this functor. *)
Variable kSplineOrder : nat.
Variable BSplineEvaluate :
  list (list T) -> T -> T -> list (list T) -> T -> Z -> Vector6 T.

(** The members of the functor. *)
Record GyroscopeCostFunctor : Type := mkGyroscopeCostFunctor {
  measurement_ : Vector3 Double.t;
  gyroscope_model_ : GyroscopeModel T;
  trajectory_evaluation_params_ : TrajectoryEvaluationParams
}.

(** [parameters[i]]: the parameter block at an index of the enumeration.
    [parameters] is an array of pointers to blocks; reading past its end is
    undefined behaviour, modelled as [None]. *)
Definition block_at (parameters : list (list T))
    (i : GyroscopeParameterIndices) : option (list T) :=
  parameters !! Z.to_nat (to_int i).

(** [Eigen::Map<const VectorX<T>>(ptr, n)], copied: the first [n] scalars. *)
Definition read_vector (block : list T) (n : nat) : option (list T) :=
  if decide (n <= length block)%nat then Some (take n block) else None.

(** [Eigen::Map<const Quaternion<T>>(ptr)] *)
Definition read_quaternion (block : list T) : option (Quaternion T) :=
  x ← block !! 0%nat; y ← block !! 1%nat; z ← block !! 2%nat;
  w ← block !! 3%nat; Some (mkQuaternion x y z w).

(** Rows [i0 .. i0 + k) of the column-major [n x 6] matrix mapped onto a
    block: [Eigen::Map<const MatrixX<T>>(ptr, n, 6).block(i0, 0, k, 6)]. *)
Definition read_control_points (block : list T) (n i0 k : nat)
  : option (list (list T)) :=
  if decide (i0 + k <= n)%nat
  then mapM (fun r => mapM (fun c => block !! (c * n + (i0 + r))%nat)
                           (seq 0 6))
            (seq 0 k)
  else None.

(** What [operator()] reads from the parameter blocks. *)
Record Parsed : Type := mkParsed {
  p_intrinsics : list T;
  p_q_sensorrig_gyroscope : Quaternion T;
  p_latency : T;
  p_control_points : list (list T)
}.

Definition parse (f : GyroscopeCostFunctor) (parameters : list (list T))
  : option Parsed :=
  intrinsics_block ← block_at parameters kIntrinsicsIndex;
  intrinsics ← read_vector intrinsics_block
                  (NumberOfParameters (gyroscope_model_ f));
  rotation_block ← block_at parameters kExtrinsicsRotationIndex;
  q_sensorrig_gyroscope ← read_quaternion rotation_block;
  (* mapped as [t_sensorrig_gyroscope], never read *)
  _ ← block_at parameters kExtrinsicsTranslationIndex;
  latency_block ← block_at parameters kLatencyIndex;
  latency ← latency_block !! 0%nat;
  all_control_points ←
    block_at parameters kSensorRigPoseSplineControlPointsIndex;
  control_points ←
    read_control_points all_control_points
      (num_control_points (trajectory_evaluation_params_ f))
      (spline_index (trajectory_evaluation_params_ f))
      kSplineOrder;
  Some (mkParsed intrinsics q_sensorrig_gyroscope latency control_points).

(** The angular velocity handed to the model  (lines 87-130). *)
Definition sensor_rate (f : GyroscopeCostFunctor) (p : Parsed) : Vector3 T :=
  let params := trajectory_evaluation_params_ f in
  let basis := List.map (List.map cast) (basis_matrix params) in
  let k0 := cast (knot0 params) in
  let k1 := cast (knot1 params) in
  let t := cast (stamp params) - p_latency p in
  let pose_vector :=
    BSplineEvaluate (p_control_points p) k0 k1 basis t 0 in
  let pose_dot_vector :=
    BSplineEvaluate (p_control_points p) k0 k1 basis t 1 in
  omega_sensor_world (p_q_sensorrig_gyroscope p) pose_vector pose_dot_vector.

(** [measurement_.template cast<T>()] *)
Definition cast_measurement (f : GyroscopeCostFunctor) : Vector3 T :=
  mkVector3 (cast (vx (measurement_ f))) (cast (vy (measurement_ f)))
            (cast (vz (measurement_ f))).

(** Lines 131-140: project, and write the residual on success. *)
Definition evaluate (f : GyroscopeCostFunctor) (p : Parsed)
    (residual : Vector3 T) : bool * Vector3 T :=
  let projection :=
    Project (gyroscope_model_ f) (p_intrinsics p) (sensor_rate f p) in
  match projection with
  | Absl.OkValue value => (true, Vsub (cast_measurement f) value)
  | Absl.ErrorStatus _ => (false, residual)
  end.

(** [operator()(parameters, residual)]: the returned flag and the residual
    array afterwards, or [None] when a read falls outside the parameter
    blocks.  The residual array holds [kGyroscopeResidualSize] scalars. *)
Definition call (f : GyroscopeCostFunctor) (parameters : list (list T))
    (residual : Vector3 T) : option (bool * Vector3 T) :=
  p ← parse f parameters; Some (evaluate f p residual).

End Functor.

(** *** Two numeric types *)

(** [double], with the library's [cos] and [sin] left open. *)
Definition DoubleScalar (cos sin : Double.t -> Double.t) : Scalar Double.t :=
  {| lit := Double.lit; cast := fun d => d;
     add := Double.add; sub := Double.sub; mul := Double.mul;
     div := Double.div; neg := Double.opp; sqrt := Double.sqrt;
     cos := cos; sin := sin; abs := Double.abs; ltb := Double.ltb;
     neqb := fun a b => negb (Double.eqb a b) |}.

(** The real number a finite [double] stands for. *)
Definition SF2R (x : spec_float) : R :=
  match x with
  | S754_finite s m e => (IZR (cond_Zopp s (Zpos m)) * powerRZ 2 e)%R
  | _ => 0%R
  end.

(** Real arithmetic: the functor as a function on the reals.  The operations
    are the exact ones; a literal is the real value of the [double] literal
    of the source, as [static_cast<T>] of it is, so [1.0 / 6.0] is the
    [double] nearest to one sixth and not one sixth. *)
Definition RScalar : Scalar R :=
  {| lit := fun p q => SF2R (Double.lit p q); cast := SF2R;
     add := Rplus; sub := Rminus; mul := Rmult; div := Rdiv; neg := Ropp;
     sqrt := R_sqrt.sqrt; cos := Rtrigo_def.cos; sin := Rtrigo_def.sin;
     abs := Rabs;
     ltb := fun a b => if Rlt_dec a b then true else false;
     neqb := fun a b => if Req_dec_T a b then false else true |}.

End Gyroscope.

(** * Properties *)

(** *** Facts on the [double] comparison *)

Module DoubleFacts.

Import Double.

Lemma eqb_nan_l (x : t) : eqb nan x = false.
Proof. reflexivity. Qed.

Lemma eqb_nan_r (x : t) : eqb x nan = false.
Proof. destruct x; reflexivity. Qed.

Lemma eqb_refl (x : t) : is_nan x = false -> eqb x x = true.
Proof.
  destruct x as [s|s| |s m e]; simpl; intros Hn; try reflexivity;
    try discriminate.
  - destruct s; reflexivity.
  - unfold eqb, SFeqb, SFcompare.
    destruct s; rewrite Z.compare_refl, Pos.compare_cont_refl; reflexivity.
Qed.

(** IEEE equality of two [double]s: both are zeros, or they are the same
    value. *)
Lemma eqb_true_inv (x y : t) :
  eqb x y = true ->
  (exists s1 s2, x = S754_zero s1 /\ y = S754_zero s2) \/
  (x = y /\ is_nan x = false).
Proof.
  destruct x as [s1|s1| |s1 m1 e1], y as [s2|s2| |s2 m2 e2];
    unfold eqb, SFeqb, SFcompare; intros Heq;
    try discriminate Heq;
    try (destruct s1; discriminate Heq);
    try (destruct s2; discriminate Heq).
  - left. eauto.
  - right. destruct s1, s2; try discriminate Heq; auto.
  - right.
    destruct s1, s2; try discriminate Heq;
      destruct (e1 ?= e2)%Z eqn:He; try discriminate Heq;
      apply Z.compare_eq in He; subst e2;
      destruct (Pos.compare_cont Eq m1 m2) eqn:Hm; try discriminate Heq;
      apply Pos.compare_eq in Hm; subst m2; auto.
Qed.

Lemma eqb_sym_true (x y : t) : eqb x y = true -> eqb y x = true.
Proof.
  intros Hxy.
  destruct (eqb_true_inv _ _ Hxy) as [(s1 & s2 & -> & ->)|[-> Hn]].
  - reflexivity.
  - now apply eqb_refl.
Qed.

Lemma eqb_sym (x y : t) : eqb x y = eqb y x.
Proof.
  destruct (eqb x y) eqn:Hxy.
  - symmetry. now apply eqb_sym_true.
  - destruct (eqb y x) eqn:Hyx; [|reflexivity].
    apply eqb_sym_true in Hyx. congruence.
Qed.

Lemma eqb_trans (x y z : t) :
  eqb x y = true -> eqb y z = true -> eqb x z = true.
Proof.
  intros Hxy Hyz.
  destruct (eqb_true_inv _ _ Hxy) as [(s1 & s2 & -> & ->)|[-> _]];
    [|exact Hyz].
  destruct (eqb_true_inv _ _ Hyz) as [(s3 & s4 & _ & ->)|[<- _]];
    reflexivity.
Qed.

Lemma eqb_zero_congr (x y : t) :
  eqb x y = true -> eqb x pos_zero = eqb y pos_zero.
Proof.
  intros Hxy.
  destruct (eqb_true_inv _ _ Hxy) as [(s1 & s2 & -> & ->)|[-> _]];
    reflexivity.
Qed.

End DoubleFacts.

(** ** Properties of [ObservationId] *)

Module ObservationFacts.

Import Observation.

Lemma eq_op_fields (a b : ObservationId) :
  eq_op a b = true <->
  Double.eqb (stamp a) (stamp b) = true /\
  image_id a = image_id b /\
  model_id a = model_id b /\
  feature_id a = feature_id b.
Proof.
  unfold eq_op.
  rewrite !andb_true_iff, !Z.eqb_eq.
  tauto.
Qed.

Lemma eq_op_sym (a b : ObservationId) : eq_op a b = eq_op b a.
Proof.
  unfold eq_op.
  rewrite (DoubleFacts.eqb_sym (stamp a)), (Z.eqb_sym (image_id a)),
          (Z.eqb_sym (model_id a)), (Z.eqb_sym (feature_id a)).
  reflexivity.
Qed.

Lemma eq_op_trans (a b c : ObservationId) :
  eq_op a b = true -> eq_op b c = true -> eq_op a c = true.
Proof.
  rewrite !eq_op_fields.
  intros (Hs1 & Hi1 & Hm1 & Hf1) (Hs2 & Hi2 & Hm2 & Hf2).
  repeat split; try congruence.
  eapply DoubleFacts.eqb_trans; eassumption.
Qed.

Lemma eq_op_refl (a : ObservationId) :
  Double.is_nan (stamp a) = false -> eq_op a a = true.
Proof.
  intros Hn. apply eq_op_fields.
  repeat split. now apply DoubleFacts.eqb_refl.
Qed.

Lemma hash_double_congr (H : Type) (hash_bytes : H -> Double.t -> H)
    (h : H) (x y : Double.t) :
  Double.eqb x y = true ->
  hash_double H hash_bytes h x = hash_double H hash_bytes h y.
Proof.
  intros Hxy. unfold hash_double.
  rewrite (DoubleFacts.eqb_zero_congr x y Hxy).
  destruct (DoubleFacts.eqb_true_inv x y Hxy) as [(s1 & s2 & -> & ->)|[-> _]];
    reflexivity.
Qed.

(** In terms of the values held: two ids compare [==] exactly when their
    integer fields coincide and their stamps are either both zeros (of any
    sign) or one and the same [double] other than NaN. *)
Lemma eq_op_values (a b : ObservationId) :
  eq_op a b = true <->
  ((exists s1 s2, stamp a = S754_zero s1 /\ stamp b = S754_zero s2) \/
   (stamp a = stamp b /\ Double.is_nan (stamp a) = false)) /\
  image_id a = image_id b /\
  model_id a = model_id b /\
  feature_id a = feature_id b.
Proof.
  rewrite eq_op_fields. split.
  - intros (Hs & Hrest). split; [|exact Hrest].
    now apply DoubleFacts.eqb_true_inv.
  - intros ([(s1 & s2 & Ha & Hb)|[Hab Hn]] & Hrest); split; try exact Hrest.
    + rewrite Ha, Hb. reflexivity.
    + rewrite <- Hab. now apply DoubleFacts.eqb_refl.
Qed.

(** C9.  Two ids compare [==] exactly when their stamps compare equal as
    [double]s and their three integer fields are equal; the hash of an id
    is the initial state with exactly the four fields [stamp], [image_id],
    [model_id], [feature_id] mixed in, in this order; and ids that compare
    [==] have the same hash, from every initial hash state. *)
Theorem ObservationId_eq_hash (a b : ObservationId) :
  (eq_op a b = true <->
     Double.eqb (stamp a) (stamp b) = true /\
     image_id a = image_id b /\
     model_id a = model_id b /\
     feature_id a = feature_id b) /\
  (forall (H : Type) (hash_bytes : H -> Double.t -> H)
          (hash_int : H -> Z -> H) (h : H),
     AbslHashValue H hash_bytes hash_int h a =
       hash_int
         (hash_int
            (hash_int (hash_double H hash_bytes h (stamp a)) (image_id a))
            (model_id a))
         (feature_id a) /\
     (eq_op a b = true ->
      AbslHashValue H hash_bytes hash_int h a =
        AbslHashValue H hash_bytes hash_int h b)).
Proof.
  split; [apply eq_op_fields|].
  intros H hash_bytes hash_int h. split; [reflexivity|].
  intros Heq. apply eq_op_fields in Heq.
  destruct Heq as (Hs & Hi & Hm & Hf).
  unfold AbslHashValue, combine. simpl.
  rewrite Hi, Hm, Hf, (hash_double_congr H hash_bytes h _ _ Hs).
  reflexivity.
Qed.

(** C10.  An id whose stamp is NaN does not compare [==] to itself, nor to
    any other id; hence no lookup keyed on it in a hash map of ids finds an
    entry, whatever the map holds. *)
Theorem ObservationId_nan_not_reflexive (i : ObservationId) :
  Double.is_nan (stamp i) = true ->
  eq_op i i = false /\
  (forall other, eq_op other i = false /\ eq_op i other = false) /\
  (forall (V : Type) (m : FlatHashMap.map ObservationId V),
     FlatHashMap.find eq_op i m = None /\
     FlatHashMap.contains eq_op i m = false).
Proof.
  intros Hnan.
  assert (Hl : forall other, eq_op i other = false).
  { intros other. unfold eq_op.
    destruct (stamp i); try discriminate Hnan. reflexivity. }
  assert (Hr : forall other, eq_op other i = false).
  { intros other. rewrite eq_op_sym. apply Hl. }
  split; [apply Hl|]. split; [intros other; split; auto|].
  intros V m. induction m as [|e m [IHf IHc]]; [split; reflexivity|].
  unfold FlatHashMap.find, FlatHashMap.contains in *. simpl.
  rewrite (Hr (fst e)). simpl. split; assumption.
Qed.

Definition nan_id : ObservationId := mkObservationId Double.nan 1 0 5.

Lemma ObservationId_nan_not_reflexive_witness :
  Double.is_nan (stamp nan_id) = true /\ eq_op nan_id nan_id = false.
Proof.
  split; [reflexivity|].
  apply (ObservationId_nan_not_reflexive nan_id). reflexivity.
Defined.

End ObservationFacts.

(** ** Properties of the model factory *)

Module CameraModelsFacts.

Import CameraModels.

(** C6.  [Create] returns the [OpenCv5Model] for the tag [kOpenCv5], the
    [KannalaBrandtModel] for the tag [kKannalaBrandt], and the null pointer
    for every other tag; being a total function into the pointer type, it
    has no other outcome. *)
Theorem Create_recognized_or_null (kOpenCv5 kKannalaBrandt : Z)
    (distinct_labels : kOpenCv5 <> kKannalaBrandt) (tag : Z) :
  (tag = kOpenCv5 ->
     Create kOpenCv5 kKannalaBrandt tag = Some OpenCv5Model) /\
  (tag = kKannalaBrandt ->
     Create kOpenCv5 kKannalaBrandt tag = Some KannalaBrandtModel) /\
  (recognized kOpenCv5 kKannalaBrandt tag <->
     Create kOpenCv5 kKannalaBrandt tag <> None) /\
  (~ recognized kOpenCv5 kKannalaBrandt tag <->
     Create kOpenCv5 kKannalaBrandt tag = None).
Proof.
  unfold Create, recognized.
  destruct (Z.eqb_spec tag kOpenCv5) as [E1|N1];
    destruct (Z.eqb_spec tag kKannalaBrandt) as [E2|N2];
    try (exfalso; congruence);
    repeat split; intros; try congruence; try tauto.
Qed.

Lemma Create_recognized_or_null_witness :
  (1 <> 2)%Z /\
  Create 1 2 1 = Some OpenCv5Model /\
  Create 1 2 2 = Some KannalaBrandtModel /\
  Create 1 2 7 = None.
Proof.
  assert (Hd : (1 <> 2)%Z) by lia.
  split; [exact Hd|].
  split; [apply (Create_recognized_or_null 1 2 Hd 1); reflexivity|].
  split; [apply (Create_recognized_or_null 1 2 Hd 2); reflexivity|].
  apply (Create_recognized_or_null 1 2 Hd 7).
  unfold recognized. lia.
Defined.

End CameraModelsFacts.

(** ** Counting the keys of a hash map *)

Module FlatHashMapFacts.

Import FlatHashMap.

Section Distinct.

Variable K : Type.
Variable keq : K -> K -> bool.

(** The key comparison is symmetric and transitive.  It need not be
    reflexive: a key that is not [==] to itself is [==] to no key at all. *)
Hypothesis keq_sym : forall a b, keq a b = keq b a.
Hypothesis keq_trans :
  forall a b c, keq a b = true -> keq b c = true -> keq a c = true.

(** [k] is [==] to a member of the key list. *)
Definition mem (k : K) (ks : list K) : bool :=
  existsb (fun key => keq key k) ks.

(** The keys of a map after a call that inserts [k] when it is absent. *)
Definition add_key (ks : list K) (k : K) : list K :=
  if mem k ks then ks else k :: ks.

Lemma keq_congr (x k a : K) : keq x k = true -> keq x a = keq k a.
Proof.
  intros Hxk.
  destruct (keq x a) eqn:Hxa, (keq k a) eqn:Hka; try reflexivity.
  - rewrite keq_sym in Hxk.
    rewrite (keq_trans k x a Hxk Hxa) in Hka. discriminate.
  - rewrite (keq_trans x k a Hxk Hka) in Hxa. discriminate.
Qed.

Lemma existsb_keq_congr (x k : K) (l : list K) :
  keq x k = true -> existsb (keq x) l = existsb (keq k) l.
Proof.
  intros Hxk. induction l as [|a l IH]; simpl; [reflexivity|].
  now rewrite IH, (keq_congr x k a Hxk).
Qed.

Lemma existsb_filter_other (x k : K) (l : list K) :
  keq x k = false ->
  existsb (keq x) (List.filter (fun y => negb (keq y k)) l) =
  existsb (keq x) l.
Proof.
  intros Hxk. induction l as [|a l IH]; simpl; [reflexivity|].
  destruct (keq a k) eqn:Hak; simpl.
  - rewrite IH.
    destruct (keq x a) eqn:Hxa; [|reflexivity].
    rewrite (keq_trans x a k Hxa Hak) in Hxk. discriminate.
  - now rewrite IH.
Qed.

(** Removing the keys [==] to [k] removes exactly one distinct key when
    there is one, and none otherwise. *)
Lemma count_distinct_remove (k : K) (l : list K) :
  (count_distinct keq (List.filter (fun y => negb (keq y k)) l) +
   (if existsb (keq k) l then 1 else 0))%nat = count_distinct keq l.
Proof.
  induction l as [|x l IH]; simpl; [reflexivity|].
  destruct (keq x k) eqn:Hxk; simpl.
  - rewrite (keq_sym k x), Hxk. simpl.
    rewrite (existsb_keq_congr x k l Hxk).
    destruct (existsb (keq k) l); lia.
  - rewrite (keq_sym k x), Hxk. simpl.
    rewrite (existsb_filter_other x k l Hxk).
    destruct (existsb (keq x) l); lia.
Qed.

Lemma filter_fresh_cons (k : K) (ks l : list K) :
  List.filter (fun x => negb (mem x (k :: ks))) l =
  List.filter (fun y => negb (keq y k))
              (List.filter (fun x => negb (mem x ks)) l).
Proof.
  induction l as [|a l IH]; [reflexivity|].
  cbn [List.filter]. rewrite IH.
  replace (mem a (k :: ks)) with (keq k a || mem a ks) by reflexivity.
  rewrite (keq_sym k a).
  destruct (mem a ks); cbn [List.filter negb orb]; cbv beta;
    destruct (keq a k); reflexivity.
Qed.

(** Starting from the keys [ks], a sequence of insert-when-absent calls
    adds one key for every distinct submitted key that [ks] lacks. *)
Lemma length_fold_add_key (l ks : list K) :
  length (fold_left add_key l ks) =
  (length ks +
   count_distinct keq (List.filter (fun x => negb (mem x ks)) l))%nat.
Proof.
  revert ks. induction l as [|k l IH]; intros ks; simpl; [lia|].
  assert (Hstep : add_key ks k = if mem k ks then ks else k :: ks)
    by reflexivity.
  rewrite Hstep. clear Hstep.
  destruct (mem k ks) eqn:Hmem; simpl.
  - apply IH.
  - rewrite IH, filter_fresh_cons. simpl.
    pose proof (count_distinct_remove k
                  (List.filter (fun x => negb (mem x ks)) l)) as Hrem.
    destruct (existsb (keq k) (List.filter (fun x => negb (mem x ks)) l));
      lia.
Qed.

Lemma length_fold_add_key_empty (l : list K) :
  length (fold_left add_key l []) = count_distinct keq l.
Proof.
  rewrite length_fold_add_key. simpl. f_equal.
  induction l as [|a l IH]; simpl; congruence.
Qed.

End Distinct.

End FlatHashMapFacts.

(** ** Properties of the [Camera] store and of [Project] *)

Module CameraFacts.

Import Observation Absl Camera.

Definition spec_float_eq_dec (x y : spec_float) : {x = y} + {x <> y}.
Proof.
  decide equality; solve [apply Bool.bool_dec | apply Pos.eq_dec
                         | apply Z.eq_dec].
Defined.

Definition ObservationId_eq_dec (a b : ObservationId) : {a = b} + {a <> b}.
Proof.
  decide equality; solve [apply Z.eq_dec | apply spec_float_eq_dec].
Defined.

(** An id whose stamp is neither NaN nor the negative zero.  On such ids
    [operator==] is the identity of ids. *)
Definition plain (k : ObservationId) : bool :=
  match stamp k with
  | S754_nan | S754_zero true => false
  | _ => true
  end.

Lemma plain_not_nan (k : ObservationId) :
  plain k = true -> Double.is_nan (stamp k) = false.
Proof. unfold plain. destruct (stamp k) as [[|]| | |]; now intros H. Qed.

Lemma eq_op_plain (a b : ObservationId) :
  plain a = true -> plain b = true -> eq_op a b = true <-> a = b.
Proof.
  intros Ha Hb. split.
  - intros Heq. apply ObservationFacts.eq_op_values in Heq.
    destruct a as [sa ia ma fa], b as [sb ib mb fb].
    unfold plain in Ha, Hb. cbn [stamp image_id model_id feature_id] in *.
    destruct Heq as ([(s1 & s2 & -> & ->)|[Hs _]] & -> & -> & ->).
    + destruct s1, s2; try discriminate Ha; try discriminate Hb.
      reflexivity.
    + now rewrite Hs.
  - intros <-. now apply ObservationFacts.eq_op_refl, plain_not_nan.
Qed.

Lemma existsb_eq_op_plain (k : ObservationId) (l : list ObservationId) :
  plain k = true -> List.Forall (fun x => plain x = true) l ->
  existsb (eq_op k) l = true <-> In k l.
Proof.
  intros Hk Hl. rewrite existsb_exists. split.
  - intros (x & Hin & Heq).
    rewrite List.Forall_forall in Hl.
    apply (eq_op_plain k x Hk (Hl x Hin)) in Heq. now subst x.
  - intros Hin. exists k. split; [exact Hin|].
    now apply (eq_op_plain k k Hk Hk).
Qed.

(** On plain ids the ids distinct under [operator==] are the distinct
    ids. *)
Lemma count_distinct_nodup (l : list ObservationId) :
  List.Forall (fun x => plain x = true) l ->
  FlatHashMap.count_distinct eq_op l =
  length (nodup ObservationId_eq_dec l).
Proof.
  induction l as [|k l IH]; intros Hl; [reflexivity|].
  apply List.Forall_cons_iff in Hl. destruct Hl as [Hk Hl].
  pose proof (existsb_eq_op_plain k l Hk Hl) as Hmem.
  cbn [FlatHashMap.count_distinct nodup].
  destruct (in_dec ObservationId_eq_dec k l) as [Hin|Hout].
  - rewrite (proj2 Hmem Hin). now apply IH.
  - destruct (existsb (eq_op k) l) eqn:He.
    + exfalso. apply Hout. now apply Hmem.
    + cbn [length]. f_equal. now apply IH.
Qed.

Lemma contains_mem (k : ObservationId) (s : store) :
  FlatHashMap.contains eq_op k s =
  FlatHashMapFacts.mem ObservationId eq_op k (FlatHashMap.keys s).
Proof.
  induction s as [|e s IH]; simpl; [reflexivity|].
  now rewrite IH.
Qed.

Lemma keys_AddMeasurement (m : CameraMeasurement) (s : store) :
  FlatHashMap.keys (snd (AddMeasurement m s)) =
  FlatHashMapFacts.add_key ObservationId eq_op (FlatHashMap.keys s) (id m).
Proof.
  unfold AddMeasurement, FlatHashMapFacts.add_key.
  rewrite contains_mem.
  destruct (FlatHashMapFacts.mem ObservationId eq_op (id m)
                                 (FlatHashMap.keys s)); reflexivity.
Qed.

Lemma keys_AddAll (ms : list CameraMeasurement) (s : store) :
  FlatHashMap.keys (AddAll ms s) =
  fold_left (FlatHashMapFacts.add_key ObservationId eq_op)
            (List.map id ms) (FlatHashMap.keys s).
Proof.
  revert s. induction ms as [|m ms IH]; intros s; [reflexivity|].
  unfold AddAll in *. simpl. rewrite IH, keys_AddMeasurement.
  reflexivity.
Qed.

Lemma contains_of_In (k : ObservationId) (s : store) :
  Double.is_nan (stamp k) = false ->
  In k (FlatHashMap.keys s) ->
  FlatHashMap.contains eq_op k s = true.
Proof.
  intros Hn Hin. unfold FlatHashMap.contains.
  apply existsb_exists.
  apply in_map_iff in Hin. destruct Hin as (e & He & Hin).
  exists e. split; [exact Hin|].
  rewrite He. now apply ObservationFacts.eq_op_refl.
Qed.

(** The scenario of the specification: an empty store accepts the id
    [{stamp 0.0, image 1, model 0, feature 5}] and then holds one
    measurement; adding the same id again is rejected and the count stays
    one. *)
Definition first_measurement : CameraMeasurement :=
  mkCameraMeasurement (mkVector2d (Double.of_Z 320) (Double.of_Z 240))
                      (mkObservationId Double.pos_zero 1 0 5).

Example AddMeasurement_scenario :
  let r1 := AddMeasurement first_measurement FlatHashMap.empty in
  let r2 := AddMeasurement first_measurement (snd r1) in
  fst r1 = OkStatus /\ NumberOfMeasurements (snd r1) = 1%nat /\
  fst r2 = DuplicateEntry /\ NumberOfMeasurements (snd r2) = 1%nat.
Proof. cbv zeta. repeat split. Qed.


(** C8.  The [Project] overload without a time argument returns a list for
    every camera, trajectory and world model: with a model set it is the
    payload of the failable overload run on every timestamp of the
    trajectory, that is, the valid observations at those timestamps and
    nothing else; with no model set it is the empty list, where the
    overload taking times reports a configuration error for every choice
    of times. *)
Theorem Project_all_times_never_fails
    (Trajectory WorldModel Extrinsics Intrinsics : Type)
    (timestamps : Trajectory -> list Double.t)
    (observe : CameraModels.CameraModel -> Extrinsics -> Intrinsics ->
               Trajectory -> WorldModel -> Double.t ->
               list CameraMeasurement)
    (c : camera Extrinsics Intrinsics)
    (trajectory : Trajectory) (world_model : WorldModel) :
  let project_all :=
    Project Trajectory WorldModel Extrinsics Intrinsics timestamps observe
            c trajectory world_model in
  let project_times :=
    fun times =>
      Project_times Trajectory WorldModel Extrinsics Intrinsics observe
                    c times trajectory world_model in
  (forall model, camera_model_ _ _ c = Some model ->
     project_times (timestamps trajectory) = OkValue project_all /\
     forall m, In m project_all <->
       exists t, In t (timestamps trajectory) /\
                 In m (observe model (T_sensorrig_sensor_ _ _ c)
                               (intrinsics_ _ _ c) trajectory world_model
                               t)) /\
  (camera_model_ _ _ c = None ->
     project_all = [] /\
     forall times, project_times times = ErrorStatus ConfigurationError).
Proof.
  cbv zeta. unfold Project, Project_times. split.
  - intros model Hmodel. rewrite Hmodel. split; [reflexivity|].
    intros m. apply in_flat_map.
  - intros Hnone. rewrite Hnone. split; [reflexivity|].
    intros times. reflexivity.
Qed.

End CameraFacts.

(** ** Properties of the cost functor, at every numeric type *)

Module GyroscopeFacts.

Import Gyroscope.

(** Splits a chain of reads at its first read, which either fails or
    yields a value. *)
Ltac step_read :=
  match goal with
  | |- context [mbind _ ?m] =>
      let E := fresh "Eread" in destruct m eqn:E; simpl
  end.

Section Generic.

Context {T : Type} (S : Scalar T).
Variable kSplineOrder : nat.
Variable BSplineEvaluate :
  list (list T) -> T -> T -> list (list T) -> T -> Z -> Vector6 T.

Lemma block_at_five (parameters : list (list T)) :
  length parameters = 5%nat ->
  block_at parameters kSensorRigPoseSplineControlPointsIndex = None.
Proof.
  intros Hlen. unfold block_at. apply lookup_ge_None_2.
  rewrite Hlen. simpl. lia.
Qed.

Lemma parse_needs_block_7 (f : GyroscopeCostFunctor)
    (parameters : list (list T)) :
  block_at parameters kSensorRigPoseSplineControlPointsIndex = None ->
  parse kSplineOrder f parameters = None.
Proof.
  intros Hnone. unfold parse.
  repeat (step_read; [|reflexivity]).
  congruence.
Qed.

Lemma parse_reads_block_7 (f : GyroscopeCostFunctor)
    (parameters : list (list T)) (p : Parsed) :
  parse kSplineOrder f parameters = Some p ->
  exists all_control_points,
    parameters !! 7%nat = Some all_control_points /\
    read_control_points all_control_points
      (num_control_points (trajectory_evaluation_params_ f))
      (spline_index (trajectory_evaluation_params_ f))
      kSplineOrder = Some (p_control_points p).
Proof.
  unfold parse. intros Hparse.
  repeat (match type of Hparse with
          | context [mbind _ ?m] =>
              let E := fresh "Eread" in
              destruct m eqn:E; simpl in Hparse; [|discriminate Hparse]
          end).
  injection Hparse as <-. simpl.
  eexists. split; [exact Eread6|exact Eread7].
Qed.

(** On the small-angle branch the coefficients do not use the division of
    the numeric type. *)
Lemma SeriesCoefficients_small_no_div (d : T -> T -> T) (theta_sq : T) :
  ltb (abs (sqrt theta_sq)) (lit 1 10000000) = true ->
  @SeriesCoefficients T (with_div d S) theta_sq =
  @SeriesCoefficients T S theta_sq.
Proof.
  intros Hsmall. unfold SeriesCoefficients. simpl.
  rewrite Hsmall. reflexivity.
Qed.

Lemma ManifoldJacobian_small_no_div (d : T -> T -> T) (phi : Vector3 T) :
  ltb (abs (sqrt (squaredNorm phi))) (lit 1 10000000) = true ->
  @ManifoldJacobian T (with_div d S) phi = @ManifoldJacobian T S phi.
Proof.
  intros Hsmall. unfold ManifoldJacobian.
  change (@squaredNorm T (with_div d S) phi) with (@squaredNorm T S phi).
  change (@neqb T (with_div d S)) with (@neqb T S).
  change (@lit T (with_div d S)) with (@lit T S).
  destruct (neqb (squaredNorm phi) (lit 0 1)); [|reflexivity].
  rewrite SeriesCoefficients_small_no_div by exact Hsmall.
  reflexivity.
Qed.

(** The shape of [J] on the branch taken for a non-zero squared angle. *)
Lemma ManifoldJacobian_nonzero (phi : Vector3 T) :
  neqb (squaredNorm phi) (lit 0 1) = true ->
  ManifoldJacobian phi =
  Madd Identity
       (Madd (Mscale (fst (SeriesCoefficients (squaredNorm phi))) (skew phi))
             (Mmul (Mscale (snd (SeriesCoefficients (squaredNorm phi)))
                           (skew phi))
                   (skew phi))).
Proof.
  intros Hnz. unfold ManifoldJacobian. rewrite Hnz.
  destruct (SeriesCoefficients (squaredNorm phi)); reflexivity.
Qed.

Lemma ManifoldJacobian_zero (phi : Vector3 T) :
  neqb (squaredNorm phi) (lit 0 1) = false ->
  ManifoldJacobian phi = Identity.
Proof.
  intros Hz. unfold ManifoldJacobian. now rewrite Hz.
Qed.

Lemma read_vector_in_bounds (block : list T) (n : nat) :
  (n <= length block)%nat -> is_Some (read_vector block n).
Proof.
  intros Hn. unfold read_vector.
  destruct (decide (n <= length block)%nat); [eauto|contradiction].
Qed.

Lemma read_quaternion_in_bounds (block : list T) :
  (4 <= length block)%nat -> is_Some (read_quaternion block).
Proof.
  intros Hn.
  destruct block as [|x [|y [|z [|w rest]]]]; simpl in Hn; try lia.
  simpl. eauto.
Qed.

Lemma read_control_points_in_bounds (block : list T) (n i0 k : nat) :
  (i0 + k <= n)%nat -> (6 * n <= length block)%nat ->
  is_Some (read_control_points block n i0 k).
Proof.
  intros Hwin Hlen. unfold read_control_points.
  destruct (decide (i0 + k <= n)%nat); [|contradiction].
  apply mapM_is_Some, Forall_forall. intros r Hr.
  apply elem_of_seq in Hr.
  apply mapM_is_Some, Forall_forall. intros c Hc.
  apply elem_of_seq in Hc.
  apply lookup_lt_is_Some_2. nia.
Qed.

(** The reads of [operator()] stay in bounds, and [parse] yields a value,
    when the parameter array has a block at each index the code uses and
    the blocks are long enough. *)
Lemma parse_in_bounds (f : GyroscopeCostFunctor)
    (parameters : list (list T))
    (b0 b1 b2 b3 b7 : list T) :
  parameters !! 0%nat = Some b0 ->
  parameters !! 1%nat = Some b1 ->
  parameters !! 2%nat = Some b2 ->
  parameters !! 3%nat = Some b3 ->
  parameters !! 7%nat = Some b7 ->
  (NumberOfParameters (gyroscope_model_ f) <= length b0)%nat ->
  (4 <= length b1)%nat ->
  (1 <= length b3)%nat ->
  (spline_index (trajectory_evaluation_params_ f) + kSplineOrder
   <= num_control_points (trajectory_evaluation_params_ f))%nat ->
  (6 * num_control_points (trajectory_evaluation_params_ f)
   <= length b7)%nat ->
  is_Some (parse kSplineOrder f parameters).
Proof.
  intros H0 H1 H2 H3 H7 Hn Hq Hl Hwin Hcp.
  destruct (read_vector_in_bounds b0 _ Hn) as [intrinsics Hi].
  destruct (read_quaternion_in_bounds b1 Hq) as [q Hrq].
  destruct (lookup_lt_is_Some_2 b3 0) as [latency Hlat]; [lia|].
  destruct (read_control_points_in_bounds b7 _ _ _ Hwin Hcp) as [cps Hcps].
  assert (B0 : block_at parameters kIntrinsicsIndex = Some b0)
    by exact H0.
  assert (B1 : block_at parameters kExtrinsicsRotationIndex = Some b1)
    by exact H1.
  assert (B2 : block_at parameters kExtrinsicsTranslationIndex = Some b2)
    by exact H2.
  assert (B3 : block_at parameters kLatencyIndex = Some b3) by exact H3.
  assert (B7 : block_at parameters kSensorRigPoseSplineControlPointsIndex
               = Some b7) by exact H7.
  unfold parse. rewrite B0, B1, B2, B3, B7.
  cbn [mbind option_bind]. rewrite Hi.
  cbn [mbind option_bind]. rewrite Hrq.
  cbn [mbind option_bind]. rewrite Hlat.
  cbn [mbind option_bind]. rewrite Hcps.
  cbn [mbind option_bind]. eauto.
Qed.

(** C1, on the code.  The control points are read from the parameter block
    at index 7.  With the five blocks the functor documents (intrinsics,
    rotation, translation, latency, control points) that index lies past the
    end of the array: the block is not there, and the evaluation performs
    an out-of-bounds read instead of returning a result. *)
Theorem control_points_read_past_five_blocks (f : GyroscopeCostFunctor)
    (parameters : list (list T)) (residual : Vector3 T) :
  length parameters = 5%nat ->
  to_int kSensorRigPoseSplineControlPointsIndex = 7%Z /\
  to_int kSensorRigPoseSplineControlPointsIndex <> (to_int kLatencyIndex + 1)%Z /\
  block_at parameters kSensorRigPoseSplineControlPointsIndex = None /\
  call kSplineOrder BSplineEvaluate f parameters residual = None.
Proof.
  intros Hlen.
  pose proof (block_at_five parameters Hlen) as Hnone.
  repeat split; try assumption.
  - simpl. lia.
  - unfold call. now rewrite (parse_needs_block_7 f parameters Hnone).
Qed.


End Generic.

(** *** A functor to run *)

Definition zero3 : Vector3 R := mkVector3 0%R 0%R 0%R.

(** A model with one intrinsic parameter that either accepts every rate,
    returning it as it is, or rejects every rate. *)
Definition gate_model (accept : bool) : GyroscopeModel R :=
  mkGyroscopeModel R 1
    (fun intrinsics omega =>
       if accept then Absl.OkValue omega
       else Absl.ErrorStatus Absl.ProjectionInvalid).

Definition sample_params : TrajectoryEvaluationParams :=
  mkTrajectoryEvaluationParams Double.pos_zero 0 Double.pos_zero
                               (Double.of_Z 1) 1 [].

Definition sample_functor (accept : bool) : @GyroscopeCostFunctor R :=
  mkGyroscopeCostFunctor
    (mkVector3 (Double.of_Z 1) (Double.of_Z 2) (Double.of_Z 3))
    (gate_model accept) sample_params.

(** A spline that is at rest at the origin. *)
Definition rest_spline :
  list (list R) -> R -> R -> list (list R) -> R -> Z -> Vector6 R :=
  fun _ _ _ _ _ _ => mkVector6 zero3 zero3.

Definition one_control_point : list R := [0; 0; 0; 0; 0; 0]%R.

(** The five blocks of the documented layout. *)
Definition five_blocks : list (list R) :=
  [[1]; [0; 0; 0; 1]; [0; 0; 0]; [0]; one_control_point]%R.

(** Eight blocks, the control points at index 7. *)
Definition eight_blocks : list (list R) :=
  [[1]; [0; 0; 0; 1]; [0; 0; 0]; [0]; []; []; []; one_control_point]%R.

Definition sample_parsed : @Parsed R :=
  mkParsed [1%R] (mkQuaternion 0 0 0 1)%R 0%R [one_control_point].

Lemma control_points_read_past_five_blocks_witness :
  length five_blocks = 5%nat /\
  call (S := RScalar) 1 rest_spline (sample_functor true) five_blocks zero3
    = None.
Proof.
  split; [reflexivity|].
  apply (control_points_read_past_five_blocks RScalar 1 rest_spline
           (sample_functor true) five_blocks zero3).
  reflexivity.
Defined.


End GyroscopeFacts.

(** ** The manifold Jacobian and the angular velocity over the reals *)

Module GyroscopeReal.

Import Gyroscope.

Local Open Scope R_scope.

Local Existing Instance RScalar.

(** *** The literals of the source as real numbers *)

Lemma SF2R_lit (p q : Z) (s : bool) (m e : positive) :
  Double.lit p q = S754_finite s m (Zneg e) ->
  SF2R (Double.lit p q) = IZR (cond_Zopp s (Zpos m)) / IZR (2 ^ Zpos e).
Proof.
  intros ->. unfold SF2R, powerRZ. rewrite pow_IZR, positive_nat_Z.
  reflexivity.
Qed.

(** Proves [SF2R (Double.lit p q) = r] from the literal's mantissa and
    exponent. *)
Ltac literal_value m e :=
  match goal with
  | |- SF2R (Double.lit ?p ?q) = _ =>
      rewrite (SF2R_lit p q false m e) by (vm_compute; reflexivity);
      cbn [cond_Zopp];
      let v := eval vm_compute in (2 ^ Zpos e)%Z in
      change (2 ^ Zpos e)%Z with v
  end.

Lemma SF2R_lit_0 : SF2R (Double.lit 0 1) = 0.
Proof.
  replace (Double.lit 0 1) with (S754_zero false) by (vm_compute; reflexivity).
  reflexivity.
Qed.

Lemma SF2R_lit_1 : SF2R (Double.lit 1 1) = 1.
Proof. literal_value 4503599627370496%positive 52%positive. lra. Qed.

Lemma SF2R_lit_2 : SF2R (Double.lit 2 1) = 2.
Proof. literal_value 4503599627370496%positive 51%positive. lra. Qed.

Lemma SF2R_lit_half : SF2R (Double.lit 1 2) = 1 / 2.
Proof. literal_value 4503599627370496%positive 53%positive. lra. Qed.

(** The switch point [1e-7] of the source is the [double] nearest to
    [10^-7], which lies just below it. *)
Lemma SF2R_lit_threshold :
  SF2R (Double.lit 1 10000000) =
  7555786372591432 / 75557863725914323419136.
Proof. literal_value 7555786372591432%positive 76%positive. reflexivity. Qed.

Lemma threshold_pos : 0 < lit 1 10000000.
Proof.
  change (0 < SF2R (Double.lit 1 10000000)). rewrite SF2R_lit_threshold. lra.
Qed.

Lemma threshold_below : lit 1 10000000 < 1 / 10000000.
Proof.
  change (SF2R (Double.lit 1 10000000) < 1 / 10000000).
  rewrite SF2R_lit_threshold. lra.
Qed.

Lemma lit_24_value : lit 1 24 = 6004799503160661 / 144115188075855872.
Proof.
  change (lit 1 24) with (SF2R (Double.lit 1 24)).
  literal_value 6004799503160661%positive 57%positive. reflexivity.
Qed.

Lemma lit_720_value : lit 1 720 = 6405119470038039 / 4611686018427387904.
Proof.
  change (lit 1 720) with (SF2R (Double.lit 1 720)).
  literal_value 6405119470038039%positive 62%positive. reflexivity.
Qed.

Lemma lit_6_value : lit 1 6 = 6004799503160661 / 36028797018963968.
Proof.
  change (lit 1 6) with (SF2R (Double.lit 1 6)).
  literal_value 6004799503160661%positive 55%positive. reflexivity.
Qed.

Lemma lit_120_value : lit 1 120 = 4803839602528529 / 576460752303423488.
Proof.
  change (lit 1 120) with (SF2R (Double.lit 1 120)).
  literal_value 4803839602528529%positive 59%positive. reflexivity.
Qed.

Lemma lit_5040_value : lit 1 5040 = 7320136537186330 / 36893488147419103232.
Proof.
  change (lit 1 5040) with (SF2R (Double.lit 1 5040)).
  literal_value 7320136537186330%positive 65%positive. reflexivity.
Qed.

(** The series literals [1.0 / n] are the [double]s nearest to [1 / n]:
    each is within the relative rounding error [2^-53] of it. *)
Lemma series_literals_rounded :
  Rabs (lit 1 24 * 24 - 1) <= 1 / 9007199254740992 /\
  Rabs (lit 1 720 * 720 - 1) <= 1 / 9007199254740992 /\
  Rabs (lit 1 6 * 6 - 1) <= 1 / 9007199254740992 /\
  Rabs (lit 1 120 * 120 - 1) <= 1 / 9007199254740992 /\
  Rabs (lit 1 5040 * 5040 - 1) <= 1 / 9007199254740992.
Proof.
  rewrite lit_24_value, lit_720_value, lit_6_value, lit_120_value,
    lit_5040_value.
  repeat split; apply Rabs_le; lra.
Qed.

(** Unfolds the vector and matrix operations down to real arithmetic, the
    literals [0.0], [1.0], [2.0] and [0.5] becoming their values. *)
Ltac unfold_eigen :=
  cbv [omega_sensor_world transformVector toRotationMatrix Mmul Mv Vm
       Madd Mscale Vadd Vscale Vsub Vneg cross dot col0 col1 col2
       skew Identity squaredNorm
       vx vy vz row0 row1 row2 qx qy qz qw head3 tail3
       add sub mul div neg lit RScalar];
  rewrite ?SF2R_lit_0, ?SF2R_lit_1, ?SF2R_lit_2, ?SF2R_lit_half.

Lemma squaredNorm_nonneg (phi : Vector3 R) : 0 <= squaredNorm phi.
Proof. destruct phi as [x y z]. unfold_eigen. nra. Qed.

Lemma theta_sq_sqrt (phi : Vector3 R) :
  R_sqrt.sqrt (squaredNorm phi) * R_sqrt.sqrt (squaredNorm phi) =
  squaredNorm phi.
Proof. apply sqrt_sqrt, squaredNorm_nonneg. Qed.

Lemma neqb_zero_true (x : R) : x <> 0 -> neqb x (lit 0 1) = true.
Proof.
  intros Hx.
  change (neqb x (lit 0 1))
    with (if Req_dec_T x (SF2R (Double.lit 0 1)) then false else true).
  rewrite SF2R_lit_0. destruct (Req_dec_T x 0) as [E|N]; [|reflexivity].
  contradiction.
Qed.

Lemma neqb_zero_false (x : R) : x = 0 -> neqb x (lit 0 1) = false.
Proof.
  intros Hx.
  change (neqb x (lit 0 1))
    with (if Req_dec_T x (SF2R (Double.lit 0 1)) then false else true).
  rewrite SF2R_lit_0. destruct (Req_dec_T x 0) as [E|N]; [reflexivity|].
  contradiction.
Qed.

Lemma ltb_true (a b : R) : a < b -> ltb a b = true.
Proof.
  intros H. change (ltb a b) with (if Rlt_dec a b then true else false).
  destruct (Rlt_dec a b); [reflexivity|contradiction].
Qed.

Lemma ltb_false (a b : R) : b <= a -> ltb a b = false.
Proof.
  intros H. change (ltb a b) with (if Rlt_dec a b then true else false).
  destruct (Rlt_dec a b); [lra|reflexivity].
Qed.

Lemma small_angle_test_true (theta_sq : R) :
  Rabs (R_sqrt.sqrt theta_sq) < lit 1 10000000 ->
  ltb (abs (sqrt theta_sq)) (lit 1 10000000) = true.
Proof. intros H. exact (ltb_true _ _ H). Qed.

Lemma small_angle_test_false (theta_sq : R) :
  lit 1 10000000 <= Rabs (R_sqrt.sqrt theta_sq) ->
  ltb (abs (sqrt theta_sq)) (lit 1 10000000) = false.
Proof. intros H. exact (ltb_false _ _ H). Qed.

Lemma SeriesCoefficients_small (theta_sq : R) :
  Rabs (R_sqrt.sqrt theta_sq) < lit 1 10000000 ->
  SeriesCoefficients theta_sq =
  (1 / 2 - theta_sq * lit 1 24 + theta_sq * theta_sq * lit 1 720,
   lit 1 6 - theta_sq * lit 1 120 + theta_sq * theta_sq * lit 1 5040).
Proof.
  intros Hsmall. unfold SeriesCoefficients.
  rewrite (small_angle_test_true _ Hsmall). unfold_eigen. reflexivity.
Qed.

Lemma SeriesCoefficients_large (theta_sq : R) :
  lit 1 10000000 <= Rabs (R_sqrt.sqrt theta_sq) ->
  theta_sq <> 0 ->
  SeriesCoefficients theta_sq =
  ((1 - Rtrigo_def.cos (R_sqrt.sqrt theta_sq)) / theta_sq,
   (1 - Rtrigo_def.sin (R_sqrt.sqrt theta_sq) / R_sqrt.sqrt theta_sq)
   / theta_sq).
Proof.
  intros Hlarge Hnz. unfold SeriesCoefficients.
  assert (Hroot : R_sqrt.sqrt theta_sq <> 0).
  { intros E. rewrite E, Rabs_R0 in Hlarge.
    pose proof threshold_pos. lra. }
  rewrite (small_angle_test_false _ Hlarge). unfold_eigen.
  cbv [sqrt cos sin]. f_equal; field; try split; assumption.
Qed.

(** The matrix the code accumulates, entry by entry. *)
Lemma ManifoldJacobian_entries (c1 c2 x y z : R) :
  Madd Identity
       (Madd (Mscale c1 (skew (mkVector3 x y z)))
             (Mmul (Mscale c2 (skew (mkVector3 x y z)))
                   (skew (mkVector3 x y z)))) =
  mkMatrix3
    (mkVector3 (1 - c2 * (y * y + z * z))
               (- (c1 * z) + c2 * (x * y))
               (c1 * y + c2 * (x * z)))
    (mkVector3 (c1 * z + c2 * (x * y))
               (1 - c2 * (x * x + z * z))
               (- (c1 * x) + c2 * (y * z)))
    (mkVector3 (- (c1 * y) + c2 * (x * z))
               (c1 * x + c2 * (y * z))
               (1 - c2 * (x * x + y * y))).
Proof. unfold_eigen. f_equal; f_equal; ring. Qed.

(** C2.  For every numeric type and every rotation vector [phi = (x, y, z)]
    whose squared norm [theta_sq = x*x + (y*y + z*z)] passes the test
    [theta_sq != 0], the matrix computed is
    [I + (c1 * phi_x + (c2 * phi_x) * phi_x)], where [phi_x] is the
    skew-symmetric matrix [[0, -z, y], [z, 0, -x], [-y, x, 0]] and, with
    [theta = sqrt(theta_sq)]: when the test [abs(theta) < 1e-7] fails,
    [c1 = (1 - cos theta) * (1 / theta_sq)] and
    [c2 = (1 - sin theta / theta) * (1 / theta_sq)]; when it holds,
    [c1 = 0.5 - theta_sq * (1/24) + theta_sq^2 * (1/720)] and
    [c2 = 1/6 - theta_sq * (1/120) + theta_sq^2 * (1/5040)], and the
    result does not depend on the division of the numeric type, so nothing
    is divided by [theta_sq].  Over the reals, for every [phi] of non-zero
    angle [theta], the nine entries are those of [I + c1 K + c2 K^2], with
    [c1 = (1 - cos theta) / theta^2] and
    [c2 = (1 - sin theta / theta) / theta^2] when [|theta|] is at least the
    switch point, and the three-term series below it; the switch point and
    the series constants are the [double] literals of the source. *)
Theorem ManifoldJacobian_closed_form :
  (forall (T : Type) (S : Scalar T) (phi : Vector3 T),
     let x := vx phi in
     let y := vy phi in
     let z := vz phi in
     let theta_sq := add (mul x x) (add (mul y y) (mul z z)) in
     let theta := sqrt theta_sq in
     let phi_x := mkMatrix3 (mkVector3 (lit 0 1) (neg z) y)
                            (mkVector3 z (lit 0 1) (neg x))
                            (mkVector3 (neg y) x (lit 0 1)) in
     neqb theta_sq (lit 0 1) = true ->
     exists c1 c2 : T,
       ManifoldJacobian phi =
         Madd Identity
              (Madd (Mscale c1 phi_x) (Mmul (Mscale c2 phi_x) phi_x)) /\
       (ltb (abs theta) (lit 1 10000000) = false ->
          c1 = mul (sub (lit 1 1) (cos theta)) (div (lit 1 1) theta_sq) /\
          c2 = mul (sub (lit 1 1) (div (sin theta) theta))
                   (div (lit 1 1) theta_sq)) /\
       (ltb (abs theta) (lit 1 10000000) = true ->
          c1 = add (sub (lit 1 2) (mul theta_sq (lit 1 24)))
                   (mul (mul theta_sq theta_sq) (lit 1 720)) /\
          c2 = add (sub (lit 1 6) (mul theta_sq (lit 1 120)))
                   (mul (mul theta_sq theta_sq) (lit 1 5040)) /\
          forall d : T -> T -> T,
            @ManifoldJacobian T (with_div d S) phi =
            @ManifoldJacobian T S phi)) /\
  (forall phi : Vector3 R,
     let x := vx phi in
     let y := vy phi in
     let z := vz phi in
     let theta := R_sqrt.sqrt (x * x + (y * y + z * z)) in
     theta <> 0 ->
     exists c1 c2 : R,
       ManifoldJacobian phi =
         mkMatrix3
           (mkVector3 (1 - c2 * (y * y + z * z))
                      (- (c1 * z) + c2 * (x * y))
                      (c1 * y + c2 * (x * z)))
           (mkVector3 (c1 * z + c2 * (x * y))
                      (1 - c2 * (x * x + z * z))
                      (- (c1 * x) + c2 * (y * z)))
           (mkVector3 (- (c1 * y) + c2 * (x * z))
                      (c1 * x + c2 * (y * z))
                      (1 - c2 * (x * x + y * y))) /\
       (lit 1 10000000 <= Rabs theta ->
          c1 = (1 - Rtrigo_def.cos theta) / theta ^ 2 /\
          c2 = (1 - Rtrigo_def.sin theta / theta) / theta ^ 2) /\
       (Rabs theta < lit 1 10000000 ->
          c1 = 1 / 2 - theta ^ 2 * lit 1 24 + theta ^ 4 * lit 1 720 /\
          c2 = lit 1 6 - theta ^ 2 * lit 1 120 + theta ^ 4 * lit 1 5040)).
Proof.
  split.
  - intros T S [x y z]. cbn [vx vy vz]. cbv zeta. intros Hnz.
    exists (fst (SeriesCoefficients
                   (add (mul x x) (add (mul y y) (mul z z))))),
           (snd (SeriesCoefficients
                   (add (mul x x) (add (mul y y) (mul z z))))).
    split; [|split].
    + exact (GyroscopeFacts.ManifoldJacobian_nonzero S (mkVector3 x y z) Hnz).
    + intros Ht. unfold SeriesCoefficients. rewrite Ht. split; reflexivity.
    + intros Ht. unfold SeriesCoefficients. rewrite Ht.
      split; [reflexivity|]. split; [reflexivity|].
      intros d.
      exact (GyroscopeFacts.ManifoldJacobian_small_no_div S d
               (mkVector3 x y z) Ht).
  - intros [x y z]. cbn [vx vy vz]. cbv zeta. intros Htheta.
    set (theta := R_sqrt.sqrt (x * x + (y * y + z * z))) in *.
    assert (Hsq : theta * theta = x * x + (y * y + z * z)).
    { exact (theta_sq_sqrt (mkVector3 x y z)). }
    assert (Hnz : x * x + (y * y + z * z) <> 0).
    { intros Hz. apply Htheta. unfold theta. rewrite Hz. apply sqrt_0. }
    exists (fst (SeriesCoefficients (x * x + (y * y + z * z)))),
           (snd (SeriesCoefficients (x * x + (y * y + z * z)))).
    split; [|split].
    + rewrite (GyroscopeFacts.ManifoldJacobian_nonzero RScalar
                 (mkVector3 x y z) (neqb_zero_true _ Hnz)).
      apply ManifoldJacobian_entries.
    + intros Hlarge.
      rewrite (SeriesCoefficients_large _ Hlarge Hnz). cbn [fst snd].
      fold theta. rewrite <- Hsq. split; field; exact Htheta.
    + intros Hsmall.
      rewrite (SeriesCoefficients_small _ Hsmall). cbn [fst snd].
      rewrite <- Hsq. split; ring.
Qed.

(** The same at the rotation vector [(1, 0, 0)] over the reals and, in
    [double] arithmetic, at every vector that passes the two tests. *)
Lemma ManifoldJacobian_closed_form_witness :
  R_sqrt.sqrt (1 * 1 + (0 * 0 + 0 * 0)) <> 0 /\
  exists c1 c2 : R,
    ManifoldJacobian (mkVector3 1 0 0) =
      mkMatrix3 (mkVector3 (1 - c2 * (0 * 0 + 0 * 0))
                           (- (c1 * 0) + c2 * (1 * 0))
                           (c1 * 0 + c2 * (1 * 0)))
                (mkVector3 (c1 * 0 + c2 * (1 * 0))
                           (1 - c2 * (1 * 1 + 0 * 0))
                           (- (c1 * 1) + c2 * (0 * 0)))
                (mkVector3 (- (c1 * 0) + c2 * (1 * 0))
                           (c1 * 1 + c2 * (0 * 0))
                           (1 - c2 * (1 * 1 + 0 * 0))).
Proof.
  assert (Htheta : R_sqrt.sqrt (1 * 1 + (0 * 0 + 0 * 0)) <> 0).
  { replace (1 * 1 + (0 * 0 + 0 * 0)) with 1 by ring. rewrite sqrt_1. lra. }
  split; [exact Htheta|].
  destruct (proj2 ManifoldJacobian_closed_form (mkVector3 1 0 0) Htheta)
    as (c1 & c2 & HJ & _).
  exists c1, c2. exact HJ.
Defined.

(** *** The angular velocity *)

Lemma Qinverse_unit :
  Qinverse (mkQuaternion 0 0 0 1) =
  mkQuaternion (- 0 / (0 * 0 + 0 * 0 + (0 * 0 + 1 * 1)))
               (- 0 / (0 * 0 + 0 * 0 + (0 * 0 + 1 * 1)))
               (- 0 / (0 * 0 + 0 * 0 + (0 * 0 + 1 * 1)))
               (1 / (0 * 0 + 0 * 0 + (0 * 0 + 1 * 1))).
Proof.
  unfold Qinverse.
  rewrite ltb_true; [reflexivity|].
  unfold_eigen. lra.
Qed.

(** The rotation matrix of a quaternion acts on a vector as the quaternion
    does, so the product grouped to the left is the rotation of [J * v]. *)
Lemma rotation_of_product (q : Quaternion R) (J : Matrix3 R) (v : Vector3 R) :
  Mv (Mmul (toRotationMatrix q) J) v = transformVector q (Mv J v).
Proof.
  destruct q as [x y z w].
  destruct J as [[a00 a01 a02] [a10 a11 a12] [a20 a21 a22]].
  destruct v as [v0 v1 v2].
  unfold_eigen. f_equal; field.
Qed.

Lemma transformVector_Vneg (q : Quaternion R) (J : Matrix3 R) (v : Vector3 R) :
  transformVector q (Mv J (Vneg v)) = Vneg (transformVector q (Mv J v)).
Proof.
  destruct q as [x y z w].
  destruct J as [[a00 a01 a02] [a10 a11 a12] [a20 a21 a22]].
  destruct v as [v0 v1 v2].
  unfold_eigen. f_equal; ring.
Qed.

(** C5, as the code has it.  The angular velocity handed to the model is
    the rotation, by the inverse of the extrinsic quaternion, of [J] applied
    to [phi_dot], where [J] is computed at [phi = - pose.head(3)] and
    [phi_dot = - pose_dot.head(3)] is the negated rotational component of
    the pose rate; equivalently it is the negation of
    [q^-1 (J (pose_dot.head(3)))]. *)
Theorem omega_sensor_world_rotated_rate (q : Quaternion R)
    (pose_vector pose_dot_vector : Vector6 R) :
  let J := ManifoldJacobian (Vneg (head3 pose_vector)) in
  let phi_dot := Vneg (head3 pose_dot_vector) in
  omega_sensor_world q pose_vector pose_dot_vector =
    transformVector (Qinverse q) (Mv J phi_dot) /\
  omega_sensor_world q pose_vector pose_dot_vector =
    Vneg (transformVector (Qinverse q) (Mv J (head3 pose_dot_vector))).
Proof.
  intros J phi_dot.
  assert (Hrot : omega_sensor_world q pose_vector pose_dot_vector =
                 transformVector (Qinverse q) (Mv J phi_dot)).
  { unfold omega_sensor_world. fold J. fold phi_dot.
    apply rotation_of_product. }
  split; [exact Hrot|].
  rewrite Hrot. unfold phi_dot. apply transformVector_Vneg.
Qed.

(** C5 as stated fails: with the identity extrinsic rotation, a pose at the
    origin and the pose rate [(1, 0, 0)] about the first axis, the code
    yields the rate [-1] about that axis, whereas [q^-1 (J phi_dot)] with
    [phi_dot] the rotational component of the pose rate is [+1]. *)
Lemma omega_sensor_world_vs_pose_rate :
  let q := mkQuaternion 0 0 0 1 in
  let pose_vector := mkVector6 (mkVector3 0 0 0) (mkVector3 0 0 0) in
  let pose_dot_vector := mkVector6 (mkVector3 1 0 0) (mkVector3 0 0 0) in
  let J := ManifoldJacobian (Vneg (head3 pose_vector)) in
  vx (omega_sensor_world q pose_vector pose_dot_vector) = -1 /\
  vx (transformVector (Qinverse q) (Mv J (head3 pose_dot_vector))) = 1 /\
  omega_sensor_world q pose_vector pose_dot_vector <>
    transformVector (Qinverse q) (Mv J (head3 pose_dot_vector)).
Proof.
  intros q pose_vector pose_dot_vector J.
  assert (HJ : J = Identity).
  { apply (GyroscopeFacts.ManifoldJacobian_zero RScalar).
    apply neqb_zero_false. unfold squaredNorm, dot. simpl. ring. }
  assert (Hcode : vx (omega_sensor_world q pose_vector pose_dot_vector) = -1).
  { unfold omega_sensor_world. fold J. rewrite HJ.
    unfold q, pose_dot_vector. rewrite Qinverse_unit. unfold_eigen.
    field. }
  assert (Hclaim :
            vx (transformVector (Qinverse q) (Mv J (head3 pose_dot_vector)))
            = 1).
  { rewrite HJ. unfold q, pose_dot_vector. rewrite Qinverse_unit.
    unfold_eigen. field. }
  split; [exact Hcode|]. split; [exact Hclaim|].
  intros Heq. rewrite Heq, Hclaim in Hcode. lra.
Qed.

End GyroscopeReal.

(** ** The manifold Jacobian near the zero rotation *)

Module GyroscopeContinuity.

Import Gyroscope.

(** The nine entries of a matrix, row by row. *)
Definition entries {T : Type} (M : Matrix3 T) : list T :=
  [vx (row0 M); vy (row0 M); vz (row0 M);
   vx (row1 M); vy (row1 M); vz (row1 M);
   vx (row2 M); vy (row2 M); vz (row2 M)].

(** Entrywise agreement of two [double] matrices within [tol], the
    differences and the comparison being computed in [double]. *)
Definition Mclose (tol : Double.t) (A B : Matrix3 Double.t) : bool :=
  forallb (fun ab => Double.leb (Double.abs (Double.sub (fst ab) (snd ab)))
                                tol)
          (combine (entries A) (entries B)).

(** Entrywise agreement of two real matrices within [tol]. *)
Definition Mclose_R (tol : R) (A B : Matrix3 R) : Prop :=
  List.Forall2 (fun a b => (Rabs (a - b) <= tol)%R) (entries A) (entries B).

Definition zero_rotation : Vector3 Double.t :=
  mkVector3 Double.pos_zero Double.pos_zero Double.pos_zero.

(** The literal [1e-8]. *)
Definition angle : Double.t := Double.lit 1 100000000.

(** Half the angle, [0.5 * 1e-8]: the first-order term of the matrix. *)
Definition half_angle : Double.t := Double.mul (Double.lit 1 2) angle.

(** The first term the three-term series of [c1] leaves out,
    [theta^6 / 40320], at the angle [1e-8]. *)
Definition truncation : Double.t :=
  let angle_sq := Double.mul angle angle in
  Double.mul (Double.mul (Double.mul angle_sq angle_sq) angle_sq)
             (Double.lit 1 40320).

(** The machine epsilon of [double], [2^-52]. *)
Definition epsilon : Double.t := Double.lit 1 4503599627370496.

(** Rotation vectors of angle [1e-8]: along each axis, and two oblique
    ones, [(6e-9, 8e-9, 0)] and [(-6e-9, 0, 8e-9)]. *)
Definition rotations_of_angle_1e8 : list (Vector3 Double.t) :=
  [mkVector3 angle Double.pos_zero Double.pos_zero;
   mkVector3 Double.pos_zero angle Double.pos_zero;
   mkVector3 Double.pos_zero Double.pos_zero angle;
   mkVector3 (Double.lit 6 1000000000) (Double.lit 8 1000000000)
             Double.pos_zero;
   mkVector3 (Double.opp (Double.lit 6 1000000000)) Double.pos_zero
             (Double.lit 8 1000000000)].

(** A [cos] or [sin] that would turn every result it takes part in into
    NaN. *)
Definition poisoned : Double.t -> Double.t := fun _ => Double.nan.

Section Real.

Import GyroscopeReal.

Local Open Scope R_scope.
Local Existing Instance RScalar.

Lemma square_bound (x r t : R) :
  0 < t -> 0 <= r -> t * t = x * x + r -> - t <= x <= t.
Proof. intros Ht Hr Hsq. split; nra. Qed.

Lemma product_bound (a b A B : R) :
  - A <= a <= A -> - B <= b <= B -> - (A * B) <= a * b <= A * B.
Proof. intros Ha Hb. split; nra. Qed.

(** With coefficients bounded by [1/2] and [1/6], the matrix
    [I + c1 [phi]x + c2 [phi]x^2] is within [t] of the identity when [phi]
    has norm [t <= 1]. *)
Lemma entries_bound (x y z t c1 c2 : R) :
  0 < t <= 1 -> t * t = x * x + (y * y + z * z) ->
  0 <= c1 <= 1 / 2 -> 0 <= c2 <= 1 / 6 ->
  Mclose_R t
    (Madd Identity
       (Madd (Mscale c1 (skew (mkVector3 x y z)))
             (Mmul (Mscale c2 (skew (mkVector3 x y z)))
                   (skew (mkVector3 x y z)))))
    Identity.
Proof.
  intros Ht Hsq Hc1 Hc2.
  assert (Hx : - t <= x <= t).
  { apply (square_bound x (y * y + z * z) t); [lra|nra|exact Hsq]. }
  assert (Hy : - t <= y <= t).
  { apply (square_bound y (x * x + z * z) t); [lra|nra|lra]. }
  assert (Hz : - t <= z <= t).
  { apply (square_bound z (x * x + y * y) t); [lra|nra|lra]. }
  assert (Htt : t * t <= t) by nra.
  assert (Hc1' : - (1 / 2) <= c1 <= 1 / 2) by lra.
  assert (Hc2' : - (1 / 6) <= c2 <= 1 / 6) by lra.
  pose proof (product_bound c1 x _ _ Hc1' Hx) as H1x.
  pose proof (product_bound c1 y _ _ Hc1' Hy) as H1y.
  pose proof (product_bound c1 z _ _ Hc1' Hz) as H1z.
  pose proof (product_bound c2 _ _ _ Hc2' (product_bound x x _ _ Hx Hx))
    as H2xx.
  pose proof (product_bound c2 _ _ _ Hc2' (product_bound y y _ _ Hy Hy))
    as H2yy.
  pose proof (product_bound c2 _ _ _ Hc2' (product_bound z z _ _ Hz Hz))
    as H2zz.
  pose proof (product_bound c2 _ _ _ Hc2' (product_bound x y _ _ Hx Hy))
    as H2xy.
  pose proof (product_bound c2 _ _ _ Hc2' (product_bound x z _ _ Hx Hz))
    as H2xz.
  pose proof (product_bound c2 _ _ _ Hc2' (product_bound y z _ _ Hy Hz))
    as H2yz.
  clear Hx Hy Hz Hc1 Hc2 Hc1' Hc2'.
  unfold Mclose_R, entries. unfold_eigen.
  repeat (apply List.Forall2_cons; [apply Rabs_le; split; lra|]).
  apply List.Forall2_nil.
Qed.

Lemma ManifoldJacobian_origin :
  ManifoldJacobian (mkVector3 0 0 0) = Identity.
Proof.
  apply (GyroscopeFacts.ManifoldJacobian_zero RScalar).
  apply neqb_zero_false. unfold_eigen. ring.
Qed.

(** Below the switch point the series coefficients, computed with the
    literals of the source, lie in [[0, 1/2]] and [[0, 1/6]]. *)
Lemma series_coefficient_range (t : R) :
  0 <= t <= 1 / 100000000000000 ->
  0 <= 1 / 2 - t * lit 1 24 + t * t * lit 1 720 <= 1 / 2 /\
  0 <= lit 1 6 - t * lit 1 120 + t * t * lit 1 5040 <= 1 / 6.
Proof.
  intros Ht.
  rewrite lit_24_value, lit_720_value, lit_6_value, lit_120_value,
    lit_5040_value.
  assert (Htt : 0 <= t * t <= t * (1 / 100000000000000)) by nra.
  split; split; lra.
Qed.

(** Over the reals, every rotation vector of non-zero angle below the
    switch point yields a matrix within that angle of the one at the zero
    rotation, which is the identity, and is computed without the
    division. *)
Lemma ManifoldJacobian_near_identity (phi : Vector3 R) :
  0 < R_sqrt.sqrt (squaredNorm phi) < lit 1 10000000 ->
  Mclose_R (R_sqrt.sqrt (squaredNorm phi)) (ManifoldJacobian phi)
           (ManifoldJacobian (mkVector3 0 0 0)) /\
  forall d : R -> R -> R,
    @ManifoldJacobian R (with_div d RScalar) phi =
    @ManifoldJacobian R RScalar phi.
Proof.
  intros Htheta.
  pose proof (theta_sq_sqrt phi) as Hsq.
  pose proof threshold_below as Hbelow.
  set (theta := R_sqrt.sqrt (squaredNorm phi)) in *.
  assert (Hnz : squaredNorm phi <> 0) by (rewrite <- Hsq; nra).
  assert (Hsmall : Rabs (R_sqrt.sqrt (squaredNorm phi)) < lit 1 10000000).
  { fold theta. rewrite Rabs_pos_eq; lra. }
  assert (Hrange : 0 <= squaredNorm phi <= 1 / 100000000000000).
  { rewrite <- Hsq. nra. }
  split.
  - rewrite ManifoldJacobian_origin.
    rewrite (GyroscopeFacts.ManifoldJacobian_nonzero RScalar phi
               (neqb_zero_true _ Hnz)).
    rewrite (SeriesCoefficients_small _ Hsmall). cbn [fst snd].
    destruct (series_coefficient_range _ Hrange) as [Hc1 Hc2].
    destruct phi as [x y z].
    apply entries_bound.
    + lra.
    + exact Hsq.
    + exact Hc1.
    + exact Hc2.
  - intros d.
    apply (GyroscopeFacts.ManifoldJacobian_small_no_div RScalar d phi).
    now apply small_angle_test_true.
Qed.

End Real.

(** C3, as the code has it.  In [double] arithmetic, whatever the library's
    [cos] and [sin] and whatever the division: at the zero rotation the
    matrix is the identity; at each listed rotation vector, whose computed
    angle is [1e-8], the coefficients are exactly the limits [1/2] and
    [1/6] of the series at angle zero, every entry of the matrix is finite,
    and the matrix agrees with the one at the zero rotation within half the
    angle, [0.5 * 1e-8], entrywise; about the first axis the matrix is the
    identity with the first-order term [-/+ 0.5 * 1e-8] in the two skew
    positions, so the bound is attained.  The results not depending on the
    division, none is performed, by zero or otherwise.  Over the reals,
    every rotation vector of non-zero angle below the switch point gives a
    matrix within that angle of the one at the zero rotation, without the
    division. *)
Theorem ManifoldJacobian_continuous_at_zero :
  (forall (cos sin : Double.t -> Double.t)
          (d : Double.t -> Double.t -> Double.t),
     let S := with_div d (DoubleScalar cos sin) in
     @ManifoldJacobian _ S zero_rotation = @Identity _ S /\
     forallb Double.is_finite (entries (@ManifoldJacobian _ S zero_rotation))
       = true /\
     Forall (fun phi =>
               Double.sqrt (@squaredNorm _ S phi) = angle /\
               @SeriesCoefficients _ S (@squaredNorm _ S phi) =
                 (Double.lit 1 2, Double.lit 1 6) /\
               forallb Double.is_finite (entries (@ManifoldJacobian _ S phi))
                 = true /\
               Mclose half_angle (@ManifoldJacobian _ S phi)
                      (@ManifoldJacobian _ S zero_rotation) = true)
            rotations_of_angle_1e8 /\
     @ManifoldJacobian _ S
        (mkVector3 angle Double.pos_zero Double.pos_zero) =
       mkMatrix3
         (mkVector3 (Double.lit 1 1) Double.pos_zero Double.pos_zero)
         (mkVector3 Double.pos_zero (Double.lit 1 1)
                    (Double.opp half_angle))
         (mkVector3 Double.pos_zero half_angle (Double.lit 1 1))) /\
  (forall phi : Vector3 R,
     (0 < R_sqrt.sqrt (@squaredNorm _ RScalar phi)
        < @lit _ RScalar 1 10000000)%R ->
     Mclose_R (R_sqrt.sqrt (@squaredNorm _ RScalar phi))
              (@ManifoldJacobian _ RScalar phi)
              (@ManifoldJacobian _ RScalar (mkVector3 0 0 0)%R) /\
     forall d : R -> R -> R,
       @ManifoldJacobian R (with_div d RScalar) phi =
       @ManifoldJacobian R RScalar phi).
Proof.
  split.
  - intros cos sin d S.
    split; [vm_compute; reflexivity|].
    split; [vm_compute; reflexivity|].
    split; [|vm_compute; reflexivity].
    unfold rotations_of_angle_1e8.
    repeat (apply List.Forall_cons;
            [repeat split; vm_compute; reflexivity|]).
    apply List.Forall_nil.
  - intros phi Htheta.
    apply (ManifoldJacobian_near_identity phi Htheta).
Qed.

Lemma ManifoldJacobian_continuous_at_zero_witness :
  (0 < R_sqrt.sqrt
         (@squaredNorm _ RScalar (mkVector3 (1 / 100000000) 0 0)%R)
     < @lit _ RScalar 1 10000000)%R /\
  Mclose_R (R_sqrt.sqrt
              (@squaredNorm _ RScalar (mkVector3 (1 / 100000000) 0 0)%R))
           (@ManifoldJacobian _ RScalar (mkVector3 (1 / 100000000) 0 0)%R)
           (@ManifoldJacobian _ RScalar (mkVector3 0 0 0)%R).
Proof.
  assert (Htheta :
            R_sqrt.sqrt
              (@squaredNorm _ RScalar (mkVector3 (1 / 100000000) 0 0)%R)
            = (1 / 100000000)%R).
  { replace (@squaredNorm _ RScalar (mkVector3 (1 / 100000000) 0 0)%R)
      with ((1 / 100000000) * (1 / 100000000))%R
      by (GyroscopeReal.unfold_eigen; ring).
    apply sqrt_square. lra. }
  assert (Hrange :
            (0 < R_sqrt.sqrt
                   (@squaredNorm _ RScalar (mkVector3 (1 / 100000000) 0 0)%R)
               < @lit _ RScalar 1 10000000)%R).
  { rewrite Htheta.
    change (@lit _ RScalar 1 10000000) with (SF2R (Double.lit 1 10000000)).
    rewrite GyroscopeReal.SF2R_lit_threshold. lra. }
  split; [exact Hrange|].
  exact (proj1 (proj2 ManifoldJacobian_continuous_at_zero _ Hrange)).
Defined.

(** C3 as stated fails: in [double] arithmetic the matrix at the rotation
    of angle [1e-8] about the first axis and the matrix at the zero rotation
    differ by [0.5 * 1e-8] in the entry of row 1, column 2, which is the
    first-order term of the matrix and not an error of the truncated
    series: the two do not agree within the first omitted term of the
    series, within the machine epsilon, or within [1e-9]. *)
Lemma ManifoldJacobian_first_order_gap :
  let S := DoubleScalar poisoned poisoned in
  let J := @ManifoldJacobian _ S
             (mkVector3 angle Double.pos_zero Double.pos_zero) in
  let J0 := @ManifoldJacobian _ S zero_rotation in
  vz (row1 J) = Double.opp half_angle /\
  vz (row1 J0) = Double.pos_zero /\
  Double.ltb truncation half_angle = true /\
  Double.ltb epsilon half_angle = true /\
  Double.ltb (Double.lit 1 1000000000) half_angle = true /\
  Mclose truncation J J0 = false /\
  Mclose epsilon J J0 = false /\
  Mclose (Double.lit 1 1000000000) J J0 = false.
Proof. repeat split; vm_compute; reflexivity. Qed.

End GyroscopeContinuity.

(** ** What [operator()] reads, and what it leaves unread *)

Module FunctorFrame.

Import Gyroscope.

Section Frame.

Context {T : Type} (S : Scalar T).
Variable kSplineOrder : nat.
Variable BSplineEvaluate :
  list (list T) -> T -> T -> list (list T) -> T -> Z -> Vector6 T.

(** The scalars of the control-point block that lie in the window of the
    functor's spline segment: rows [i0 .. i0 + k) of the [n x 6] matrix. *)
Definition in_window (n i0 k : nat) (i : nat) : Prop :=
  exists c r, (c < 6)%nat /\ (r < k)%nat /\ i = (c * n + (i0 + r))%nat.

Lemma read_control_points_window (block block' : list T) (n i0 k : nat) :
  (forall i, in_window n i0 k i -> block' !! i = block !! i) ->
  read_control_points block' n i0 k = read_control_points block n i0 k.
Proof.
  intros Hagree. unfold read_control_points.
  destruct (decide (i0 + k <= n)%nat); [|reflexivity].
  apply Forall_mapM_ext, Forall_forall. intros r Hr.
  apply elem_of_seq in Hr.
  apply Forall_mapM_ext, Forall_forall. intros c Hc.
  apply elem_of_seq in Hc.
  apply Hagree. exists c, r. repeat split; lia.
Qed.

(** X1.  The translation block, the blocks at indices 4 to 6 and every block
    past index 7 have no influence on the evaluation: two parameter arrays
    that hold the same blocks at indices 0, 1, 3 and 7, and some block at
    index 2, give the same flag and the same residual (or both read out of
    bounds). *)
Theorem call_ignores_unread_blocks (f : GyroscopeCostFunctor)
    (parameters parameters' : list (list T)) (t_block t_block' : list T)
    (residual : Vector3 T) :
  parameters !! 0%nat = parameters' !! 0%nat ->
  parameters !! 1%nat = parameters' !! 1%nat ->
  parameters !! 2%nat = Some t_block ->
  parameters' !! 2%nat = Some t_block' ->
  parameters !! 3%nat = parameters' !! 3%nat ->
  parameters !! 7%nat = parameters' !! 7%nat ->
  call kSplineOrder BSplineEvaluate f parameters residual =
  call kSplineOrder BSplineEvaluate f parameters' residual.
Proof.
  intros H0 H1 H2 H2' H3 H7.
  assert (Hparse : parse kSplineOrder f parameters =
                   parse kSplineOrder f parameters').
  { assert (B0 : block_at parameters kIntrinsicsIndex =
                 block_at parameters' kIntrinsicsIndex) by exact H0.
    assert (B1 : block_at parameters kExtrinsicsRotationIndex =
                 block_at parameters' kExtrinsicsRotationIndex) by exact H1.
    assert (B2 : block_at parameters kExtrinsicsTranslationIndex =
                 Some t_block) by exact H2.
    assert (B2' : block_at parameters' kExtrinsicsTranslationIndex =
                  Some t_block') by exact H2'.
    assert (B3 : block_at parameters kLatencyIndex =
                 block_at parameters' kLatencyIndex) by exact H3.
    assert (B7 : block_at parameters kSensorRigPoseSplineControlPointsIndex =
                 block_at parameters' kSensorRigPoseSplineControlPointsIndex)
      by exact H7.
    unfold parse. rewrite B0, B1, B2, B2', B3, B7. reflexivity. }
  unfold call. now rewrite Hparse.
Qed.

(** X2.  Of the control-point block only the window of the spline segment is
    read: replacing the block at index 7 by one that agrees with it on the
    rows [spline_index .. spline_index + kSplineOrder) of the six columns
    changes nothing. *)
Theorem call_reads_window_only (f : GyroscopeCostFunctor)
    (parameters : list (list T)) (block block' : list T)
    (residual : Vector3 T) :
  parameters !! 7%nat = Some block ->
  (forall i,
     in_window (num_control_points (trajectory_evaluation_params_ f))
               (spline_index (trajectory_evaluation_params_ f))
               kSplineOrder i ->
     block' !! i = block !! i) ->
  call kSplineOrder BSplineEvaluate f (<[7%nat := block']> parameters)
       residual =
  call kSplineOrder BSplineEvaluate f parameters residual.
Proof.
  intros H7 Hagree.
  assert (Hlen : (7 < length parameters)%nat)
    by (eapply lookup_lt_Some; exact H7).
  assert (Hparse : parse kSplineOrder f (<[7%nat := block']> parameters) =
                   parse kSplineOrder f parameters).
  { assert (B0 : block_at (<[7%nat := block']> parameters) kIntrinsicsIndex
                 = block_at parameters kIntrinsicsIndex)
      by (apply list_lookup_insert_ne; simpl; lia).
    assert (B1 : block_at (<[7%nat := block']> parameters)
                          kExtrinsicsRotationIndex
                 = block_at parameters kExtrinsicsRotationIndex)
      by (apply list_lookup_insert_ne; simpl; lia).
    assert (B2 : block_at (<[7%nat := block']> parameters)
                          kExtrinsicsTranslationIndex
                 = block_at parameters kExtrinsicsTranslationIndex)
      by (apply list_lookup_insert_ne; simpl; lia).
    assert (B3 : block_at (<[7%nat := block']> parameters) kLatencyIndex
                 = block_at parameters kLatencyIndex)
      by (apply list_lookup_insert_ne; simpl; lia).
    assert (B7 : block_at (<[7%nat := block']> parameters)
                          kSensorRigPoseSplineControlPointsIndex
                 = Some block')
      by (apply list_lookup_insert_eq; exact Hlen).
    assert (B7' : block_at parameters kSensorRigPoseSplineControlPointsIndex
                  = Some block) by exact H7.
    unfold parse. rewrite B0, B1, B2, B3, B7, B7'.
    cbn [mbind option_bind].
    now rewrite (read_control_points_window block block' _ _ _ Hagree). }
  unfold call. now rewrite Hparse.
Qed.

(** *** When the reads stay in bounds *)

Lemma read_vector_defined (block : list T) (n : nat) :
  is_Some (read_vector block n) <-> (n <= length block)%nat.
Proof.
  unfold read_vector.
  destruct (decide (n <= length block)%nat) as [Hn|Hn]; split; intros H;
    try assumption; try (eexists; reflexivity).
  - destruct H as [x Hx]. discriminate Hx.
  - contradiction.
Qed.

Lemma read_quaternion_defined (block : list T) :
  is_Some (read_quaternion block) <-> (4 <= length block)%nat.
Proof.
  destruct block as [|x [|y [|z [|w rest]]]]; simpl; split; intros H;
    try lia; try (destruct H as [q Hq]; discriminate Hq).
  eexists. reflexivity.
Qed.

Lemma read_control_points_defined (block : list T) (n i0 k : nat) :
  is_Some (read_control_points block n i0 k) <->
  (i0 + k <= n)%nat /\
  (k = 0%nat \/ (5 * n + i0 + k <= length block)%nat).
Proof.
  unfold read_control_points.
  destruct (decide (i0 + k <= n)%nat) as [Hwin|Hwin].
  - rewrite mapM_is_Some, Forall_forall. split.
    + intros Hall. split; [exact Hwin|].
      destruct k as [|k']; [left; reflexivity|right].
      assert (Hr : k' ∈ seq 0 (Datatypes.S k')) by (apply elem_of_seq; lia).
      specialize (Hall k' Hr). unfold compose in Hall.
      rewrite mapM_is_Some, Forall_forall in Hall.
      assert (Hc : 5%nat ∈ seq 0 6) by (apply elem_of_seq; lia).
      specialize (Hall 5%nat Hc). unfold compose in Hall.
      apply lookup_lt_is_Some_1 in Hall. lia.
    + intros [_ Hlen] r Hr. apply elem_of_seq in Hr. unfold compose.
      rewrite mapM_is_Some, Forall_forall. intros c Hc.
      apply elem_of_seq in Hc. unfold compose.
      apply lookup_lt_is_Some_2.
      destruct Hlen as [Hk|Hlen]; [lia|nia].
  - split.
    + intros [x Hx]. discriminate Hx.
    + intros [Hwin' _]. contradiction.
Qed.

(** X3.  [operator()] returns exactly when the parameter array has a block at
    each of the indices 0, 1, 2, 3 and 7, the intrinsics block holds at
    least [NumberOfParameters] scalars, the rotation block at least four,
    the latency block at least one, the window of the spline segment lies
    within the control points, and the control-point block reaches the last
    scalar of the window.  Otherwise a read falls outside the blocks. *)
Theorem call_defined_iff (f : GyroscopeCostFunctor)
    (parameters : list (list T)) (residual : Vector3 T) :
  let n := num_control_points (trajectory_evaluation_params_ f) in
  let i0 := spline_index (trajectory_evaluation_params_ f) in
  is_Some (call kSplineOrder BSplineEvaluate f parameters residual) <->
  exists b0 b1 b2 b3 b7 : list T,
    parameters !! 0%nat = Some b0 /\
    parameters !! 1%nat = Some b1 /\
    parameters !! 2%nat = Some b2 /\
    parameters !! 3%nat = Some b3 /\
    parameters !! 7%nat = Some b7 /\
    (NumberOfParameters (gyroscope_model_ f) <= length b0)%nat /\
    (4 <= length b1)%nat /\
    (1 <= length b3)%nat /\
    (i0 + kSplineOrder <= n)%nat /\
    (kSplineOrder = 0%nat \/
     (5 * n + i0 + kSplineOrder <= length b7)%nat).
Proof.
  intros n i0. unfold call, parse. split.
  - intros [result Hresult].
    destruct (block_at parameters kIntrinsicsIndex) as [b0|] eqn:E0;
      [|discriminate Hresult].
    cbn [mbind option_bind] in Hresult.
    destruct (read_vector b0 _) as [intrinsics|] eqn:Ei;
      [|discriminate Hresult].
    cbn [mbind option_bind] in Hresult.
    destruct (block_at parameters kExtrinsicsRotationIndex) as [b1|] eqn:E1;
      [|discriminate Hresult].
    cbn [mbind option_bind] in Hresult.
    destruct (read_quaternion b1) as [q|] eqn:Eq;
      [|discriminate Hresult].
    cbn [mbind option_bind] in Hresult.
    destruct (block_at parameters kExtrinsicsTranslationIndex)
      as [b2|] eqn:E2; [|discriminate Hresult].
    cbn [mbind option_bind] in Hresult.
    destruct (block_at parameters kLatencyIndex) as [b3|] eqn:E3;
      [|discriminate Hresult].
    cbn [mbind option_bind] in Hresult.
    destruct (b3 !! 0%nat) as [latency|] eqn:El; [|discriminate Hresult].
    cbn [mbind option_bind] in Hresult.
    destruct (block_at parameters kSensorRigPoseSplineControlPointsIndex)
      as [b7|] eqn:E7; [|discriminate Hresult].
    cbn [mbind option_bind] in Hresult.
    destruct (read_control_points b7 _ _ _) as [cps|] eqn:Ec;
      [|discriminate Hresult].
    exists b0, b1, b2, b3, b7.
    split; [exact E0|]. split; [exact E1|]. split; [exact E2|].
    split; [exact E3|]. split; [exact E7|].
    split; [apply read_vector_defined; rewrite Ei; eauto|].
    split; [apply read_quaternion_defined; rewrite Eq; eauto|].
    split; [apply lookup_lt_Some in El; lia|].
    apply read_control_points_defined. fold n i0 in Ec. rewrite Ec. eauto.
  - intros (b0 & b1 & b2 & b3 & b7 & H0 & H1 & H2 & H3 & H7
            & Hn & Hq & Hl & Hwin & Hcp).
    destruct (proj2 (read_vector_defined b0 _) Hn) as [intrinsics Hi].
    destruct (proj2 (read_quaternion_defined b1) Hq) as [q Hrq].
    destruct (lookup_lt_is_Some_2 b3 0) as [latency Hlat]; [lia|].
    destruct (proj2 (read_control_points_defined b7 n i0 kSplineOrder)
                    (conj Hwin Hcp)) as [cps Hcps].
    assert (B0 : block_at parameters kIntrinsicsIndex = Some b0)
      by exact H0.
    assert (B1 : block_at parameters kExtrinsicsRotationIndex = Some b1)
      by exact H1.
    assert (B2 : block_at parameters kExtrinsicsTranslationIndex = Some b2)
      by exact H2.
    assert (B3 : block_at parameters kLatencyIndex = Some b3) by exact H3.
    assert (B7 : block_at parameters kSensorRigPoseSplineControlPointsIndex
                 = Some b7) by exact H7.
    rewrite B0, B1, B2, B3, B7.
    cbn [mbind option_bind]. rewrite Hi.
    cbn [mbind option_bind]. rewrite Hrq.
    cbn [mbind option_bind]. rewrite Hlat.
    cbn [mbind option_bind]. fold n i0. rewrite Hcps.
    cbn [mbind option_bind]. eauto.
Qed.

End Frame.

(** Eight blocks that differ from [eight_blocks] in the translation block
    and in the blocks at indices 4 to 6. *)
Definition eight_blocks_moved : list (list R) :=
  [[1]; [0; 0; 0; 1]; [7; 8; 9]; [0]; [1]; [2; 3]; [4];
   GyroscopeFacts.one_control_point]%R.

Lemma call_ignores_unread_blocks_witness :
  call (S := RScalar) 1 GyroscopeFacts.rest_spline
       (GyroscopeFacts.sample_functor true) GyroscopeFacts.eight_blocks
       GyroscopeFacts.zero3 =
  call (S := RScalar) 1 GyroscopeFacts.rest_spline
       (GyroscopeFacts.sample_functor true) eight_blocks_moved
       GyroscopeFacts.zero3.
Proof.
  apply (call_ignores_unread_blocks RScalar 1 GyroscopeFacts.rest_spline
           (GyroscopeFacts.sample_functor true)
           GyroscopeFacts.eight_blocks eight_blocks_moved
           [0; 0; 0]%R [7; 8; 9]%R); reflexivity.
Defined.

Lemma call_reads_window_only_witness :
  call (S := RScalar) 1 GyroscopeFacts.rest_spline
       (GyroscopeFacts.sample_functor true)
       (<[7%nat := (GyroscopeFacts.one_control_point ++ [42])%R]>
          GyroscopeFacts.eight_blocks)
       GyroscopeFacts.zero3 =
  call (S := RScalar) 1 GyroscopeFacts.rest_spline
       (GyroscopeFacts.sample_functor true) GyroscopeFacts.eight_blocks
       GyroscopeFacts.zero3.
Proof.
  apply (call_reads_window_only RScalar 1 GyroscopeFacts.rest_spline
           (GyroscopeFacts.sample_functor true)
           GyroscopeFacts.eight_blocks GyroscopeFacts.one_control_point).
  - reflexivity.
  - intros i (c & r & Hc & Hr & ->).
    assert (r = 0%nat) by (simpl in Hr; lia). subst r.
    do 6 (destruct c as [|c]; [reflexivity|]).
    lia.
Defined.

End FunctorFrame.

(** ** Algebra of [skew], of the manifold Jacobian and of the angular
    velocity, over the reals *)

Module JacobianAlgebra.

Import Gyroscope GyroscopeReal.

Local Open Scope R_scope.
Local Existing Instance RScalar.

(** [M.transpose()] *)
Definition Mtranspose {T : Type} (M : Matrix3 T) : Matrix3 T :=
  mkMatrix3 (mkVector3 (vx (row0 M)) (vx (row1 M)) (vx (row2 M)))
            (mkVector3 (vy (row0 M)) (vy (row1 M)) (vy (row2 M)))
            (mkVector3 (vz (row0 M)) (vz (row1 M)) (vz (row2 M))).

(** The squared norm of a quaternion, summed as [q.inverse()] sums it. *)
Definition Qnorm2 (q : Quaternion R) : R :=
  (qx q * qx q + qy q * qy q) + (qz q * qz q + qw q * qw q).

Ltac unfold_algebra :=
  cbv [omega_sensor_world transformVector toRotationMatrix Mmul Mv Vm
       Madd Mscale Vadd Vscale Vsub Vneg cross dot col0 col1 col2
       skew Identity squaredNorm Mtranspose Qnorm2
       vx vy vz row0 row1 row2 qx qy qz qw head3 tail3
       add sub mul div neg lit RScalar];
  rewrite ?SF2R_lit_0, ?SF2R_lit_1, ?SF2R_lit_2, ?SF2R_lit_half.

(** X5.  [skew(v)] is the cross-product matrix of [v]: it maps [w] to
    [v x w], it is antisymmetric, and it annihilates [v]. *)
Theorem skew_cross_product (v w : Vector3 R) :
  Mv (skew v) w = cross v w /\
  Mtranspose (skew v) = Mscale (-1) (skew v) /\
  Mv (skew v) v = mkVector3 0 0 0.
Proof.
  destruct v as [x y z], w as [a b c].
  split; [|split]; unfold_algebra.
  - f_equal; field.
  - f_equal; f_equal; field.
  - f_equal; field.
Qed.

Lemma squaredNorm_Vneg (phi : Vector3 R) :
  squaredNorm (Vneg phi) = squaredNorm phi.
Proof. destruct phi as [x y z]. unfold_algebra. ring. Qed.

(** The shape of [J] on either side of the zero test, with coefficients
    that depend on the squared norm alone. *)
Lemma ManifoldJacobian_shape (phi : Vector3 R) :
  exists c1 c2 : R,
    (squaredNorm phi = 0 -> c1 = 0 /\ c2 = 0) /\
    (squaredNorm phi <> 0 ->
       c1 = fst (SeriesCoefficients (squaredNorm phi)) /\
       c2 = snd (SeriesCoefficients (squaredNorm phi))) /\
    ManifoldJacobian phi =
      Madd Identity
           (Madd (Mscale c1 (skew phi))
                 (Mmul (Mscale c2 (skew phi)) (skew phi))).
Proof.
  destruct (Req_dec_T (squaredNorm phi) 0) as [Hz|Hnz].
  - exists 0, 0. split; [auto|]. split; [intros Hn; contradiction|].
    rewrite (GyroscopeFacts.ManifoldJacobian_zero RScalar phi
               (neqb_zero_false _ Hz)).
    destruct phi as [x y z]. unfold_algebra. f_equal; f_equal; field.
  - exists (fst (SeriesCoefficients (squaredNorm phi))),
           (snd (SeriesCoefficients (squaredNorm phi))).
    split; [intros Hz; contradiction|]. split; [auto|].
    apply (GyroscopeFacts.ManifoldJacobian_nonzero RScalar phi).
    now apply neqb_zero_true.
Qed.

(** X6.  The Jacobian fixes its own rotation vector: [J(phi) phi = phi], at
    every angle and on every branch. *)
Theorem ManifoldJacobian_fixes_axis (phi : Vector3 R) :
  Mv (ManifoldJacobian phi) phi = phi.
Proof.
  destruct (ManifoldJacobian_shape phi) as (c1 & c2 & _ & _ & ->).
  destruct phi as [x y z]. unfold_algebra. f_equal; field.
Qed.

(** X7.  The Jacobian at the opposite rotation vector is the transpose:
    [J(-phi) = J(phi)^T].  The functor evaluates [J] at
    [phi = - pose.head(3)]; that is the transpose of [J] at the rotation
    vector of the pose. *)
Theorem ManifoldJacobian_opposite_transpose (phi : Vector3 R) :
  ManifoldJacobian (Vneg phi) = Mtranspose (ManifoldJacobian phi).
Proof.
  destruct (ManifoldJacobian_shape phi) as (c1 & c2 & Hz & Hnz & ->).
  destruct (ManifoldJacobian_shape (Vneg phi))
    as (d1 & d2 & Hz' & Hnz' & ->).
  rewrite squaredNorm_Vneg in Hz', Hnz'.
  assert (Hc : d1 = c1 /\ d2 = c2).
  { destruct (Req_dec_T (squaredNorm phi) 0) as [E|N].
    - destruct (Hz E) as [-> ->], (Hz' E) as [-> ->]. auto.
    - destruct (Hnz N) as [-> ->], (Hnz' N) as [-> ->]. auto. }
  destruct Hc as [-> ->].
  destruct phi as [x y z]. unfold_algebra. f_equal; f_equal; field.
Qed.

(** X8.  The angular velocity is linear in the rotational pose rate, at a fixed
    pose and extrinsic rotation, and does not depend on the translational
    part of the pose rate. *)
Theorem omega_sensor_world_linear (q : Quaternion R)
    (pose_vector d1 d2 : Vector6 R) (a b : R) (translation : Vector3 R) :
  omega_sensor_world q pose_vector
    (mkVector6 (Vadd (Vscale a (head3 d1)) (Vscale b (head3 d2)))
               translation) =
  Vadd (Vscale a (omega_sensor_world q pose_vector d1))
       (Vscale b (omega_sensor_world q pose_vector d2)).
Proof.
  unfold omega_sensor_world.
  generalize (Mmul (toRotationMatrix (Qinverse q))
                   (ManifoldJacobian (Vneg (head3 pose_vector)))).
  intros [[m00 m01 m02] [m10 m11 m12] [m20 m21 m22]].
  destruct d1 as [[u0 u1 u2] t1], d2 as [[v0 v1 v2] t2].
  unfold_algebra. f_equal; ring.
Qed.

Lemma Qinverse_unit_norm (q : Quaternion R) :
  Qnorm2 q = 1 ->
  Qinverse q = mkQuaternion (- qx q) (- qy q) (- qz q) (qw q).
Proof.
  intros Hn. destruct q as [x y z w].
  unfold Qnorm2 in Hn. cbn [qx qy qz qw] in Hn.
  unfold Qinverse. cbn [qx qy qz qw].
  change (@add R RScalar) with Rplus. change (@mul R RScalar) with Rmult.
  rewrite Hn. rewrite ltb_true by (unfold_eigen; lra).
  unfold_eigen. f_equal; field.
Qed.

Lemma Qinverse_zero_norm (q : Quaternion R) :
  Qnorm2 q = 0 ->
  Qinverse q = mkQuaternion 0 0 0 0.
Proof.
  intros Hn. destruct q as [x y z w].
  unfold Qnorm2 in Hn. cbn [qx qy qz qw] in Hn.
  unfold Qinverse. cbn [qx qy qz qw].
  change (@add R RScalar) with Rplus. change (@mul R RScalar) with Rmult.
  rewrite Hn. rewrite ltb_false by (unfold_eigen; lra).
  unfold_eigen. reflexivity.
Qed.

Lemma transformVector_unit_norm (x y z w a b c : R) :
  x * x + y * y + (z * z + w * w) = 1 ->
  squaredNorm (transformVector (mkQuaternion x y z w) (mkVector3 a b c)) =
  squaredNorm (mkVector3 a b c).
Proof.
  intros Hn. unfold_algebra. nsatz.
Qed.

(** X9.  With a unit extrinsic quaternion the rotation into the sensor frame
    preserves the magnitude of the rate: the squared norm of the angular
    velocity is that of [J phi_dot]. *)
Theorem omega_sensor_world_unit_norm (q : Quaternion R)
    (pose_vector pose_dot_vector : Vector6 R) :
  Qnorm2 q = 1 ->
  squaredNorm (omega_sensor_world q pose_vector pose_dot_vector) =
  squaredNorm (Mv (ManifoldJacobian (Vneg (head3 pose_vector)))
                  (Vneg (head3 pose_dot_vector))).
Proof.
  intros Hn. unfold omega_sensor_world.
  rewrite rotation_of_product, (Qinverse_unit_norm q Hn).
  generalize (Mv (ManifoldJacobian (Vneg (head3 pose_vector)))
                 (Vneg (head3 pose_dot_vector))).
  intros [a b c]. destruct q as [x y z w].
  apply transformVector_unit_norm.
  unfold Qnorm2 in Hn. simpl in Hn. simpl. nra.
Qed.

(** X10.  A quaternion of norm zero is not rejected: its inverse is taken to be
    the zero quaternion, whose rotation matrix is the identity, and the
    angular velocity is [J phi_dot] unrotated. *)
Theorem omega_sensor_world_zero_quaternion (q : Quaternion R)
    (pose_vector pose_dot_vector : Vector6 R) :
  Qnorm2 q = 0 ->
  omega_sensor_world q pose_vector pose_dot_vector =
  Mv (ManifoldJacobian (Vneg (head3 pose_vector)))
     (Vneg (head3 pose_dot_vector)).
Proof.
  intros Hn. unfold omega_sensor_world.
  rewrite rotation_of_product, (Qinverse_zero_norm q Hn).
  generalize (Mv (ManifoldJacobian (Vneg (head3 pose_vector)))
                 (Vneg (head3 pose_dot_vector))).
  intros [a b c]. unfold_algebra. f_equal; field.
Qed.

Definition sample_pose : Vector6 R :=
  mkVector6 (mkVector3 1 2 3) (mkVector3 0 0 0).

Definition sample_pose_dot : Vector6 R :=
  mkVector6 (mkVector3 4 5 6) (mkVector3 0 0 0).

Lemma omega_sensor_world_unit_norm_witness :
  squaredNorm (omega_sensor_world (mkQuaternion 0 1 0 0) sample_pose
                                  sample_pose_dot) =
  squaredNorm (Mv (ManifoldJacobian (Vneg (head3 sample_pose)))
                  (Vneg (head3 sample_pose_dot))).
Proof.
  apply (omega_sensor_world_unit_norm (mkQuaternion 0 1 0 0)).
  unfold Qnorm2. simpl. lra.
Defined.

Lemma omega_sensor_world_zero_quaternion_witness :
  omega_sensor_world (mkQuaternion 0 0 0 0) sample_pose sample_pose_dot =
  Mv (ManifoldJacobian (Vneg (head3 sample_pose)))
     (Vneg (head3 sample_pose_dot)).
Proof.
  apply (omega_sensor_world_zero_quaternion (mkQuaternion 0 0 0 0)).
  unfold Qnorm2. simpl. lra.
Defined.

End JacobianAlgebra.

(** ** The functor in [double] arithmetic: NaN, and the branch that needs
    no division *)

Module DoubleEdge.

Import Gyroscope GyroscopeContinuity.

(** The same numeric type with other trigonometric functions. *)
Definition with_trig {T : Type} (c s : T -> T) (S : Scalar T) : Scalar T :=
  {| lit := @lit T S; cast := @cast T S; add := @add T S; sub := @sub T S;
     mul := @mul T S; div := @div T S; neg := @neg T S; sqrt := @sqrt T S;
     cos := c; sin := s; abs := @abs T S; ltb := @ltb T S;
     neqb := @neqb T S |}.

(** The test of [operator()] that selects the series:
    [abs(theta) < static_cast<T>(1e-7)]. *)
Definition series_branch {T : Type} {S : Scalar T} (theta_sq : T) : bool :=
  ltb (abs (sqrt theta_sq)) (lit 1 10000000).

(** X4.  At every numeric type, when the squared angle is zero or the series
    is selected, [J] is computed without the division, the cosine and the
    sine of the numeric type: replacing the three operations by any others
    leaves the result as it is. *)
Theorem ManifoldJacobian_series_uses_no_div_no_trig
    {T : Type} (S : Scalar T) (d : T -> T -> T) (c s : T -> T)
    (phi : Vector3 T) :
  neqb (squaredNorm phi) (lit 0 1) = false \/
  series_branch (squaredNorm phi) = true ->
  @ManifoldJacobian T (with_div d (with_trig c s S)) phi =
  @ManifoldJacobian T S phi.
Proof.
  intros Hcase. unfold ManifoldJacobian.
  change (@squaredNorm T (with_div d (with_trig c s S)) phi)
    with (@squaredNorm T S phi).
  change (@neqb T (with_div d (with_trig c s S))) with (@neqb T S).
  change (@lit T (with_div d (with_trig c s S))) with (@lit T S).
  destruct (neqb (squaredNorm phi) (lit 0 1)) eqn:Hnz; [|reflexivity].
  destruct Hcase as [Hz|Hseries]; [discriminate Hz|].
  unfold series_branch in Hseries.
  assert (Hc : @SeriesCoefficients T (with_div d (with_trig c s S))
                 (squaredNorm phi) =
               @SeriesCoefficients T S (squaredNorm phi)).
  { unfold SeriesCoefficients.
    change (@ltb T (with_div d (with_trig c s S))) with (@ltb T S).
    change (@abs T (with_div d (with_trig c s S))) with (@abs T S).
    change (@sqrt T (with_div d (with_trig c s S))) with (@sqrt T S).
    change (@lit T (with_div d (with_trig c s S))) with (@lit T S).
    rewrite Hseries. reflexivity. }
  rewrite Hc. reflexivity.
Qed.

Lemma ManifoldJacobian_series_uses_no_div_no_trig_witness :
  @ManifoldJacobian _
     (with_div (fun _ _ => Double.nan)
        (with_trig (fun _ => Double.nan) (fun _ => Double.nan)
           (DoubleScalar (fun x => x) (fun x => x))))
     (mkVector3 angle Double.pos_zero Double.pos_zero) =
  @ManifoldJacobian _ (DoubleScalar (fun x => x) (fun x => x))
     (mkVector3 angle Double.pos_zero Double.pos_zero).
Proof.
  apply (ManifoldJacobian_series_uses_no_div_no_trig
           (DoubleScalar (fun x => x) (fun x => x))).
  right. vm_compute. reflexivity.
Defined.

(** *** NaN *)

Lemma add_nan_l (y : Double.t) : Double.add Double.nan y = Double.nan.
Proof. destruct y; reflexivity. Qed.

Lemma add_nan_r (x : Double.t) : Double.add x Double.nan = Double.nan.
Proof. destruct x; reflexivity. Qed.

Lemma mul_nan_l (y : Double.t) : Double.mul Double.nan y = Double.nan.
Proof. destruct y; reflexivity. Qed.

Lemma mul_nan_r (x : Double.t) : Double.mul x Double.nan = Double.nan.
Proof. destruct x; reflexivity. Qed.

Lemma div_nan_r (x : Double.t) : Double.div x Double.nan = Double.nan.
Proof. destruct x; reflexivity. Qed.

Lemma is_nan_eq (x : Double.t) : Double.is_nan x = true -> x = Double.nan.
Proof. destruct x; simpl; intros H; try discriminate H. reflexivity. Qed.

Section NaN.

Variables cos sin : Double.t -> Double.t.

Local Instance double_scalar : Scalar Double.t := DoubleScalar cos sin.

Lemma squaredNorm_nan (phi : Vector3 Double.t) :
  Double.is_nan (vx phi) || Double.is_nan (vy phi) || Double.is_nan (vz phi)
    = true ->
  squaredNorm phi = Double.nan.
Proof.
  destruct phi as [x y z].
  cbv [squaredNorm dot vx vy vz add mul double_scalar DoubleScalar].
  intros H. apply orb_true_iff in H. destruct H as [H|H].
  - apply orb_true_iff in H. destruct H as [H|H].
    + rewrite (is_nan_eq x H), mul_nan_l. apply add_nan_l.
    + rewrite (is_nan_eq y H), mul_nan_l, add_nan_l. apply add_nan_r.
  - rewrite (is_nan_eq z H), mul_nan_l, add_nan_r. apply add_nan_r.
Qed.

Lemma SeriesCoefficients_nan :
  SeriesCoefficients Double.nan = (Double.nan, Double.nan).
Proof.
  unfold SeriesCoefficients.
  change (ltb (abs (sqrt Double.nan)) (lit 1 10000000)) with false.
  cbv [add sub mul div lit double_scalar DoubleScalar].
  rewrite div_nan_r, !mul_nan_r. reflexivity.
Qed.

(** X14.  A NaN in any component of the rotation vector is not masked: the zero
    test lets it through, the closed-form branch is taken, and every entry
    of [J], the diagonal included, is NaN, whatever the library's [cos] and
    [sin] return. *)
Theorem ManifoldJacobian_nan (phi : Vector3 Double.t) :
  Double.is_nan (vx phi) || Double.is_nan (vy phi) || Double.is_nan (vz phi)
    = true ->
  series_branch (squaredNorm phi) = false /\
  forallb Double.is_nan (entries (ManifoldJacobian phi)) = true.
Proof.
  intros Hnan.
  pose proof (squaredNorm_nan phi Hnan) as Hsq.
  split.
  - unfold series_branch. rewrite Hsq. reflexivity.
  - unfold ManifoldJacobian. rewrite Hsq.
    change (neqb Double.nan (lit 0 1)) with true. cbv iota.
    rewrite SeriesCoefficients_nan.
    destruct phi as [x y z].
    cbv [entries Madd Mscale Mmul Vadd Vscale Vm dot skew Identity
         col0 col1 col2 vx vy vz row0 row1 row2
         add mul neg lit double_scalar DoubleScalar].
    rewrite !mul_nan_l, !add_nan_l, !add_nan_r. reflexivity.
Qed.

End NaN.

Lemma ManifoldJacobian_nan_witness :
  forallb Double.is_nan
    (entries (@ManifoldJacobian _ (DoubleScalar (fun x => x) (fun x => x))
                (mkVector3 Double.pos_zero Double.nan Double.pos_zero)))
  = true.
Proof.
  apply (ManifoldJacobian_nan (fun x => x) (fun x => x)
           (mkVector3 Double.pos_zero Double.nan Double.pos_zero)).
  reflexivity.
Defined.

End DoubleEdge.

(** ** [operator==] on [ObservationId] as a key comparison *)

Module ObservationOrder.

Import Observation.

(** X15.  [operator==] is symmetric and transitive on all ids, and an id compares
    equal to itself exactly when its stamp is not NaN: it is an equivalence
    on the ids with a proper stamp, and relates an id with a NaN stamp to
    nothing. *)
Theorem eq_op_partial_equivalence :
  (forall a b, eq_op a b = eq_op b a) /\
  (forall a b c, eq_op a b = true -> eq_op b c = true -> eq_op a c = true) /\
  (forall a, eq_op a a = true <-> Double.is_nan (stamp a) = false).
Proof.
  split; [exact ObservationFacts.eq_op_sym|].
  split; [exact ObservationFacts.eq_op_trans|].
  intros a. split.
  - intros Hrefl. apply ObservationFacts.eq_op_values in Hrefl.
    destruct Hrefl as [[(s1 & s2 & Hz & _)|[_ Hn]] _].
    + rewrite Hz. reflexivity.
    + exact Hn.
  - apply ObservationFacts.eq_op_refl.
Qed.

(** X16.  [operator==] is the identity of ids but for the sign of a zero stamp:
    ids that compare equal are one and the same id, or have zero stamps;
    two ids that differ only in the sign of a zero stamp are different
    values that compare equal and receive the same hash. *)
Theorem eq_op_identity_up_to_zero_sign :
  (forall a b, eq_op a b = true ->
     a = b \/
     exists s1 s2, stamp a = S754_zero s1 /\ stamp b = S754_zero s2) /\
  (forall image model feature : Z,
     let a := mkObservationId Double.pos_zero image model feature in
     let b := mkObservationId Double.neg_zero image model feature in
     a <> b /\ eq_op a b = true /\
     forall (H : Type) (hash_bytes : H -> Double.t -> H)
            (hash_int : H -> Z -> H) (h : H),
       AbslHashValue H hash_bytes hash_int h a =
       AbslHashValue H hash_bytes hash_int h b).
Proof.
  split.
  - intros [sa ia ma fa] [sb ib mb fb] Heq.
    apply ObservationFacts.eq_op_values in Heq. simpl in Heq.
    destruct Heq as ([Hzero|[Hsame _]] & Hi & Hm & Hf).
    + right. exact Hzero.
    + left. congruence.
  - intros image model feature a b.
    assert (Heq : eq_op a b = true).
    { unfold eq_op, a, b. simpl. rewrite !Z.eqb_refl. reflexivity. }
    split; [intros Hab; discriminate Hab|]. split; [exact Heq|].
    intros H hash_bytes hash_int h. reflexivity.
Qed.

End ObservationOrder.
